(** * Demand classification and inventory segmentation: a shallow embedding

    The two Python modules verified here are

    - [analytics/demand_classifier.py]  (class [DemandClassifier]) and
    - [clustering/kmeans_segmenter.py]  (class [InventorySegmentation]).

    Both are written against pandas/numpy.  A pandas column of numbers is a
    sequence of IEEE doubles; what the code under study relies on is the way
    the special values propagate ([NaN] from [0/0], from the sample standard
    deviation of one value, from a missing row of a left merge; [inf] from
    [x/0]) and the way they are removed again ([fillna], [replace]).  The
    model therefore keeps the special values and their rules and takes the
    arithmetic of finite values to be exact: a finite cell is a rational
    number, kept in lowest terms so that equal cells are equal terms.
    Rounding, overflow of finite values and the sign of zero are outside the
    model.  The square root, the only irrational operation the code uses, is
    a parameter of the development: every theorem holds for any function the
    platform may use for it.

    A data frame is the list of its rows, a record per row with one field
    per column the code reads; a series indexed by entity is a list of
    (label, value) pairs in index order.  Methods that raise return a
    [result]; the instance fields of [InventorySegmentation] are a record
    threaded through [fit]; numpy's global random generator is a state
    passed in and out of the one place that draws from it. *)

From Stdlib Require Import String ZArith QArith Qabs Qround Bool Lia Lqa List.
From Stdlib Require Import Permutation Sorted.
From Stdlib Require OrderedTypeEx.
Import ListNotations.

Set Implicit Arguments.
Open Scope Q_scope.

(** ** Cells: doubles with their special values *)

Module Float64.

Inductive float64 : Type :=
| Fin (q : Q)
| PInf
| NInf
| NaN.

(** Finite results are stored reduced. *)
Definition fin (q : Q) : float64 := Fin (Qred q).

Definition Qltb (a b : Q) : bool := negb (Qle_bool b a).

Definition isnan (x : float64) : bool :=
  match x with NaN => true | _ => false end.

Definition isinf (x : float64) : bool :=
  match x with PInf | NInf => true | _ => false end.

Definition isfinite (x : float64) : bool :=
  match x with Fin _ => true | _ => false end.

Definition fneg (x : float64) : float64 :=
  match x with
  | Fin q => fin (- q)
  | PInf => NInf
  | NInf => PInf
  | NaN => NaN
  end.

Definition fabs (x : float64) : float64 :=
  match x with
  | Fin q => fin (Qabs q)
  | PInf | NInf => PInf
  | NaN => NaN
  end.

Definition fadd (x y : float64) : float64 :=
  match x, y with
  | NaN, _ | _, NaN => NaN
  | Fin a, Fin b => fin (a + b)
  | PInf, NInf | NInf, PInf => NaN
  | PInf, _ | _, PInf => PInf
  | NInf, _ | _, NInf => NInf
  end.

Definition fsub (x y : float64) : float64 := fadd x (fneg y).

(** The infinity of the sign of [a], or [NaN] when [a] is zero. *)
Definition inf_of_sign (a : Q) : float64 :=
  match a ?= 0 with
  | Gt => PInf
  | Lt => NInf
  | Eq => NaN
  end.

Definition fmul (x y : float64) : float64 :=
  match x, y with
  | NaN, _ | _, NaN => NaN
  | Fin a, Fin b => fin (a * b)
  | Fin a, PInf | PInf, Fin a => inf_of_sign a
  | Fin a, NInf | NInf, Fin a => inf_of_sign (- a)
  | PInf, PInf | NInf, NInf => PInf
  | PInf, NInf | NInf, PInf => NInf
  end.

(** Division: [x/0] is an infinity of the sign of [x], [0/0] and
    [inf/inf] are [NaN], a finite value over an infinity is [0]. *)
Definition fdiv (x y : float64) : float64 :=
  match x, y with
  | NaN, _ | _, NaN => NaN
  | Fin a, Fin b =>
      if Qeq_bool b 0 then inf_of_sign a else fin (a / b)
  | Fin _, PInf | Fin _, NInf => Fin 0
  | PInf, Fin b => if Qltb b 0 then NInf else PInf
  | NInf, Fin b => if Qltb b 0 then PInf else NInf
  | PInf, PInf | PInf, NInf | NInf, PInf | NInf, NInf => NaN
  end.

(** [x ** 2]. *)
Definition fsquare (x : float64) : float64 := fmul x x.

(** Comparisons: every comparison with [NaN] is [False]. *)
Definition flt (x y : float64) : bool :=
  match x, y with
  | NaN, _ | _, NaN => false
  | Fin a, Fin b => Qltb a b
  | NInf, NInf => false
  | NInf, _ => true
  | _, NInf => false
  | PInf, _ => false
  | Fin _, PInf => true
  end.

Definition fgt (x y : float64) : bool := flt y x.

Definition fle (x y : float64) : bool :=
  match x, y with
  | NaN, _ | _, NaN => false
  | Fin a, Fin b => Qle_bool a b
  | NInf, _ => true
  | _, PInf => true
  | _, NInf => false
  | PInf, _ => false
  end.

Definition feqb (x y : float64) : bool :=
  match x, y with
  | Fin a, Fin b => Qeq_bool a b
  | PInf, PInf | NInf, NInf => true
  | _, _ => false
  end.

(** A Python [int] used in float arithmetic. *)
Definition of_nat (n : nat) : float64 := fin (inject_Z (Z.of_nat n)).

Section Sqrt.
Variable Qsqrt : Q -> Q.

Definition fsqrt (x : float64) : float64 :=
  match x with
  | Fin a => if Qltb a 0 then NaN else fin (Qsqrt a)
  | PInf => PInf
  | NInf | NaN => NaN
  end.
End Sqrt.

(** A computable instance of the square-root parameter, used where a
    statement is evaluated on concrete data: the floor of the root on a
    grid of step 1/1000. *)
Definition Qsqrt_floor (q : Q) : Q :=
  Z.sqrt ((Qnum q * 1000000) / Zpos (Qden q)) # 1000.

(** Finite cells bounded below by [m]. *)
Definition at_least (m : Q) (x : float64) : Prop := exists y, x = Fin y /\ m <= y.

(** Cells that are 0 or missing. *)
Definition zero_or_nan (x : float64) : Prop := x = Fin 0 \/ x = NaN.

End Float64.
Export Float64.

(** ** The pandas and numpy operations the two modules call *)

Module Pd.

(** Cell-wise [fillna(v)] and [replace([inf, -inf], v)]. *)
Definition fillna (v x : float64) : float64 := if isnan x then v else x.
Definition replace_inf (v x : float64) : float64 := if isinf x then v else x.

(** [Series.clip(lo, hi)]; [NaN] stays [NaN]. *)
Definition clip (lo hi x : float64) : float64 :=
  if flt x lo then lo else if fgt x hi then hi else x.

Definition dropna (l : list float64) : list float64 :=
  filter (fun x => negb (isnan x)) l.

(** numpy reductions propagate [NaN]. *)
Definition np_sum (l : list float64) : float64 := fold_left fadd l (Fin 0).
Definition np_mean (l : list float64) : float64 :=
  fdiv (np_sum l) (of_nat (length l)).

(** pandas reductions skip [NaN] first ([skipna=True]). *)
Definition sum (l : list float64) : float64 := np_sum (dropna l).
Definition count (l : list float64) : nat := length (dropna l).

Definition mean (l : list float64) : float64 :=
  match dropna l with
  | [] => NaN
  | v => fdiv (np_sum v) (of_nat (length v))
  end.

Definition fmax (a b : float64) : float64 := if flt a b then b else a.

Definition max (l : list float64) : float64 :=
  match dropna l with
  | [] => NaN
  | x :: r => fold_left fmax r x
  end.

Section Std.
Variable Qsqrt : Q -> Q.

(** Standard deviation with [ddof] delta degrees of freedom; undefined
    ([NaN]) when there are no more than [ddof] values. *)
Definition std_ddof (ddof : nat) (l : list float64) : float64 :=
  let v := dropna l in
  let n := length v in
  if (n <=? ddof)%nat then NaN
  else
    let m := fdiv (np_sum v) (of_nat n) in
    let ss := np_sum (map (fun x => fsquare (fsub x m)) v) in
    fsqrt Qsqrt (fdiv ss (of_nat (n - ddof))).

(** [Series.std()] and the groupby [std]: the sample deviation. *)
Definition std (l : list float64) : float64 := std_ddof 1 l.
End Std.

(** [sort_values]: rows in ascending order of the sort key. *)
Section Sort.
Variable A : Type.
Variable leb : A -> A -> bool.

Fixpoint insert_sorted (x : A) (l : list A) : list A :=
  match l with
  | [] => [x]
  | y :: r => if leb x y then x :: l else y :: insert_sorted x r
  end.

Definition sort_values (l : list A) : list A :=
  fold_right insert_sorted [] l.
End Sort.

(** [groupby(keys)]: one group per distinct key, groups in ascending key
    order, each group holding the rows of its key in frame order. *)
Section GroupBy.
Variables A K : Type.
Variable key : A -> K.
Variables keqb kleb : K -> K -> bool.

Fixpoint insert_key (k : K) (ks : list K) : list K :=
  match ks with
  | [] => [k]
  | k' :: r =>
      if keqb k k' then ks
      else if kleb k k' then k :: ks
      else k' :: insert_key k r
  end.

Definition unique_keys (l : list A) : list K :=
  fold_right (fun r ks => insert_key (key r) ks) [] l.

Definition group_rows (k : K) (l : list A) : list A :=
  filter (fun r => keqb (key r) k) l.

Definition groupby (l : list A) : list (K * list A) :=
  map (fun k => (k, group_rows k l)) (unique_keys l).

(** Label lookup in a keyed series ([.loc], index alignment, merge). *)
Definition lookup (V : Type) (k : K) (s : list (K * V)) : option V :=
  match find (fun kv => keqb (fst kv) k) s with
  | Some kv => Some (snd kv)
  | None => None
  end.
End GroupBy.

(** The exact sum of finite cells. *)
Fixpoint Qsum (qs : list Q) : Q :=
  match qs with
  | [] => 0
  | q :: r => q + Qsum r
  end.

End Pd.

(** Entities are keyed by a pair of identifiers. *)
Definition key2 : Type := (string * string)%type.

Definition key2_eqb (a b : key2) : bool :=
  (fst a =? fst b)%string && (snd a =? snd b)%string.

Definition key2_leb (a b : key2) : bool :=
  String.ltb (fst a) (fst b)
  || ((fst a =? fst b)%string && String.leb (snd a) (snd b)).

(** The strict order in which [groupby] lists its keys. *)
Definition key2_lt (a b : key2) : Prop := key2_leb a b = true /\ a <> b.

(** A calendar date. *)
Record Timestamp : Type := mkTimestamp { year : Z; month : Z; day : Z }.

Definition Timestamp_leb (a b : Timestamp) : bool :=
  (year a <? year b)%Z
  || ((year a =? year b)%Z
      && ((month a <? month b)%Z
          || ((month a =? month b)%Z && (day a <=? day b)%Z))).

(** Python exceptions the modelled code can raise. *)
Inductive exn : Type :=
| KeyError (k : Z)
| ValueError
| AttributeError
| NotFittedError
| UFuncTypeError.

Inductive result (A : Type) : Type :=
| Ok (a : A)
| Raise (e : exn).
Arguments Raise {A} e.

Definition bind (A B : Type) (m : result A) (f : A -> result B) : result B :=
  match m with
  | Ok a => f a
  | Raise e => Raise e
  end.

Notation "x <- m ;; k" := (bind m (fun x => k))
  (at level 61, m at next level, right associativity).

(** * analytics/demand_classifier.py *)

Module DemandClassifier.

(** A row of the daily sales table.  The [date] cell may be missing
    ([NaT]): [None]. *)
Record sales_row : Type := mkSales {
  date : option Timestamp;
  store_id : string;
  item_id : string;
  total_sales : float64
}.

Record stats_row : Type := mkStats {
  st_store_id : string;
  st_item_id : string;
  total_demand : float64;
  num_observations : nat;
  non_zero_obs : nat;
  ADI : float64;
  nz_mean : float64;
  nz_std : float64;
  CV : float64;
  CV2 : float64
}.

Definition entity (r : sales_row) : key2 := (store_id r, item_id r).

(** [sort_values] puts missing dates last. *)
Definition date_leb (a b : option Timestamp) : bool :=
  match a, b with
  | Some x, Some y => Timestamp_leb x y
  | _, None => true
  | None, Some _ => false
  end.

Definition sales_leb (a b : sales_row) : bool :=
  String.ltb (store_id a) (store_id b)
  || ((store_id a =? store_id b)%string
      && (String.ltb (item_id a) (item_id b)
          || ((item_id a =? item_id b)%string
              && date_leb (date a) (date b)))).

(** [count] on the date column counts the cells that are not missing. *)
Definition dated (r : sales_row) : bool :=
  match date r with
  | Some _ => true
  | None => false
  end.

(** [x > 0] on the sales column. *)
Definition positive_sale (r : sales_row) : bool := fgt (total_sales r) (Fin 0).

Section CalculateFeatures.
Variable Qsqrt : Q -> Q.

(** One row of [stats] after the left merge with [nz_stats] and the
    ratio columns. *)
Definition stats_of (nz_stats : list (key2 * (float64 * float64)))
    (kg : key2 * list sales_row) : stats_row :=
  let k := fst kg in
  let g := snd kg in
  let n := length (filter dated g) in
  let nz := length (filter positive_sale g) in
  let merged :=
    match Pd.lookup key2_eqb k nz_stats with
    | Some ms => ms
    | None => (NaN, NaN)
    end in
  let std0 := Pd.fillna (Fin 0) (snd merged) in
  let mean0 := Pd.fillna (Fin 0) (fst merged) in
  let cv := fdiv std0 mean0 in
  {| st_store_id := fst k;
     st_item_id := snd k;
     total_demand := Pd.sum (map total_sales g);
     num_observations := n;
     non_zero_obs := nz;
     ADI := fdiv (of_nat n) (of_nat nz);
     nz_mean := mean0;
     nz_std := std0;
     CV := cv;
     CV2 := Pd.fillna (Fin 0) (fsquare cv) |}.

Definition calculate_features (df : list sales_row) : list stats_row :=
  let df := Pd.sort_values sales_leb df in
  let grouped := Pd.groupby entity key2_eqb key2_leb df in
  let non_zero_df := filter positive_sale df in
  let nz_stats :=
    map (fun kg =>
           (fst kg, (Pd.mean (map total_sales (snd kg)),
                     Pd.std Qsqrt (map total_sales (snd kg)))))
        (Pd.groupby entity key2_eqb key2_leb non_zero_df) in
  map (stats_of nz_stats) grouped.
End CalculateFeatures.

Definition get_category (adi cv2 : float64) : string :=
  if flt adi (Fin 1.32) then
    if flt cv2 (Fin 0.49) then "Smooth" else "Erratic"
  else
    if flt cv2 (Fin 0.49) then "Intermittent" else "Lumpy".

(** [df.apply(get_category, axis=1)] stored as the new column
    [demand_pattern]. *)
Definition classify_patterns (df : list stats_row) : list (stats_row * string) :=
  map (fun row => (row, get_category (ADI row) (CV2 row))) df.

(** [Series.value_counts()]: the distinct values with their frequencies,
    the most frequent first.  The values are taken in order of first
    appearance and then sorted by frequency; which of two equally frequent
    values comes first is a choice of the model that no statement depends
    on. *)
Fixpoint unique_values (l : list string) : list string :=
  match l with
  | [] => []
  | x :: r => x :: filter (fun y => negb (y =? x)%string) (unique_values r)
  end.

Definition count_value (p : string) (l : list string) : nat :=
  length (filter (String.eqb p) l).

Definition value_counts (l : list string) : list (string * nat) :=
  Pd.sort_values (fun a b : string * nat => (snd b <=? snd a)%nat)
                 (map (fun p => (p, count_value p l)) (unique_values l)).

Record summary_row : Type := mkSummary {
  Pattern : string;
  Count : nat;
  Percentage : float64
}.

(** The summary [save_results] builds and returns; writing the CSV file
    and printing the summary are left out. *)
Definition save_results (df : list (stats_row * string)) : list summary_row :=
  let counts := value_counts (map snd df) in
  let total := list_sum (map snd counts) in
  map (fun pc => {| Pattern := fst pc;
                    Count := snd pc;
                    Percentage := fdiv (of_nat (snd pc)) (of_nat total) |})
      counts.

End DemandClassifier.

(** * numpy's process-wide random generator

    [np.random.uniform] draws from the generator shared by the whole
    process.  A state of that generator is identified with the sequence of
    raw 53-bit integers it is going to deliver and the number already
    consumed; one double in [0, 1) is [raw / 2^53]. *)

Module NpRandom.

Record RandomState : Type := mkRandomState {
  stream : nat -> Z;
  position : nat
}.

Definition two53 : Z := 9007199254740992.

Definition random_sample (g : RandomState) : Q * RandomState :=
  (Qmake (stream g (position g) mod two53) (Z.to_pos two53),
   {| stream := stream g; position := S (position g) |}).

Fixpoint random_samples (size : nat) (g : RandomState) : list Q * RandomState :=
  match size with
  | O => ([], g)
  | S n =>
      let (u, g1) := random_sample g in
      let (us, g2) := random_samples n g1 in
      (u :: us, g2)
  end.

(** [np.random.uniform(low, high, size)]: [low + (high - low) * u]. *)
Definition uniform (low high : Q) (size : nat) (g : RandomState)
  : list float64 * RandomState :=
  let (us, g') := random_samples size g in
  (map (fun u => fin (low + (high - low) * u)) us, g').

(** The range of one double of the generator, and of a cell drawn by
    [uniform 0.7 1.0]. *)
Definition in_unit (u : Q) : Prop := 0 <= u /\ u < 1.

Definition in_07_1 (x : float64) : Prop :=
  exists q, x = Fin q /\ 0.7 <= q /\ q < 1.

End NpRandom.
Export NpRandom.

(** * clustering/kmeans_segmenter.py *)

Module InventorySegmentation.

(** A row of the sales history handed to [prepare_features].  [extra]
    holds whatever further named columns the caller's frame carries. *)
Record sales_row : Type := mkSales {
  item_id : string;
  store_id : string;
  revenue : float64;
  sales : float64;
  date : Timestamp;
  extra : list (string * float64)
}.

(** A row of the feature matrix, labelled by its entity. *)
Record feature_row : Type := mkFeature {
  index : key2;
  revenue_contribution : float64;
  demand_cv : float64;
  seasonality_strength : float64;
  trend_slope : float64;
  stockout_frequency : float64;
  supplier_reliability : float64
}.

Definition series : Type := list (key2 * float64).

Definition entity (r : sales_row) : key2 := (item_id r, store_id r).

Definition by_entity (df : list sales_row) : list (key2 * list sales_row) :=
  Pd.groupby entity key2_eqb key2_leb df.

(** [features[col] = s]: the values of [s] aligned on the index of the
    frame, [NaN] where [s] has no such label. *)
Definition loc_or_nan (s : series) (k : key2) : float64 :=
  match Pd.lookup key2_eqb k s with
  | Some v => v
  | None => NaN
  end.

Definition map_values (f : float64 -> float64) (s : series) : series :=
  map (fun kv => (fst kv, f (snd kv))) s.

(** Keys of the three-level grouping by item, store and calendar month. *)
Definition key3 : Type := (key2 * Z)%type.

Definition key3_eqb (a b : key3) : bool :=
  key2_eqb (fst a) (fst b) && (snd a =? snd b)%Z.

Definition key3_leb (a b : key3) : bool :=
  (key2_leb (fst a) (fst b) && negb (key2_eqb (fst a) (fst b)))
  || (key2_eqb (fst a) (fst b) && (snd a <=? snd b)%Z).

(** [scipy.stats.linregress(x, y).slope] for [x = arange(len(y))]: the
    biased covariance of [x] and [y] over the biased variance of [x]. *)
Definition arange (n : nat) : list float64 := map of_nat (seq 0 n).

Definition linregress_slope (x y : list float64) : float64 :=
  let xmean := Pd.np_mean x in
  let ymean := Pd.np_mean y in
  let ssxm := Pd.np_mean (map (fun xi => fsquare (fsub xi xmean)) x) in
  let ssxym :=
    Pd.np_mean (map (fun xy => fmul (fsub (fst xy) xmean) (fsub (snd xy) ymean))
                    (combine x y)) in
  fdiv ssxym ssxm.

Definition calculate_slope (group : list sales_row) : float64 :=
  if (length group <? 10)%nat then Fin 0
  else linregress_slope (arange (length group)) (map sales group).

(** Lines 136 to 141 on a table with at least one row: the slope of every
    entity, divided by the largest absolute slope plus 1e-10, missing
    values replaced by 0. *)
Definition normalised_slopes (df : list sales_row) : series :=
  let slopes := map (fun kg => (fst kg, calculate_slope (snd kg))) (by_entity df) in
  let denom := fadd (Pd.max (map (fun kv => fabs (snd kv)) slopes)) (Fin 1e-10) in
  let slopes := map_values (fun s => fdiv s denom) slopes in
  map_values (Pd.fillna (Fin 0)) slopes.

(** [_calculate_trend_slope].  On a table without rows [groupby.apply]
    has no group to call [calculate_slope] on and hands back an empty frame
    that still has the columns of the input; the arithmetic of line 139 on
    its string columns raises numpy's [UFuncTypeError]. *)
Definition _calculate_trend_slope (df : list sales_row) : result series :=
  match df with
  | [] => Raise UFuncTypeError
  | _ :: _ => Ok (normalised_slopes df)
  end.

(** Line 149 compares the [SeriesGroupBy] object itself with [0].  The
    class defines no [__eq__], so Python falls back to comparing object
    identities and the value of the comparison is the plain [bool]
    [False]; no element-wise series is built. *)
Definition SeriesGroupBy_eq (gb : list (key2 * list float64)) (v : float64) : bool :=
  false.

(** Attribute [groupby] looked up on a Python [bool]. *)
Definition bool_groupby (b : bool) : result (list (key2 * list float64)) :=
  Raise AttributeError.

Definition _calculate_stockout_frequency (df : list sales_row) : result series :=
  let gb := map (fun kg => (fst kg, map sales (snd kg))) (by_entity df) in
  regrouped <- bool_groupby (SeriesGroupBy_eq gb (Fin 0)) ;;
  let stockouts := map (fun kg => (fst kg, Pd.mean (snd kg))) regrouped in
  Ok (map_values (Pd.fillna (Fin 0)) stockouts).

(** Line 96: one uniform draw in [0.7, 1.0) per row of the frame built so
    far, taken from the process-wide generator. *)
Definition supplier_reliability_column (g : RandomState) (features_index : list key2)
  : list float64 * RandomState :=
  uniform 0.7 1.0 (length features_index) g.

(** [features.fillna(0)] followed by [features.replace([inf, -inf], 0)]. *)
Definition clean (x : float64) : float64 :=
  Pd.replace_inf (Fin 0) (Pd.fillna (Fin 0) x).

Definition clean_row (r : feature_row) : feature_row :=
  {| index := index r;
     revenue_contribution := clean (revenue_contribution r);
     demand_cv := clean (demand_cv r);
     seasonality_strength := clean (seasonality_strength r);
     trend_slope := clean (trend_slope r);
     stockout_frequency := clean (stockout_frequency r);
     supplier_reliability := clean (supplier_reliability r) |}.

(** Line 79: the first column, whose labels become the index of the
    feature frame. *)
Definition revenue_contribution_column (df : list sales_row) : series :=
  map (fun kg => (fst kg, Pd.sum (map revenue (snd kg)))) (by_entity df).

Definition features_index (df : list sales_row) : list key2 :=
  map fst (revenue_contribution_column df).

(** The frame [prepare_features] returns: the five series aligned on the
    index, the random column placed by position, and the two cleaning
    statements of lines 99-100 applied to every cell. *)
Definition assemble_features (features_index : list key2)
    (revenue_s cv_s seasonality_s trend_s stockout_s : series)
    (supplier : list float64) : list feature_row :=
  map clean_row
      (map (fun ks =>
              let k := fst ks in
              {| index := k;
                 revenue_contribution := loc_or_nan revenue_s k;
                 demand_cv := loc_or_nan cv_s k;
                 seasonality_strength := loc_or_nan seasonality_s k;
                 trend_slope := loc_or_nan trend_s k;
                 stockout_frequency := loc_or_nan stockout_s k;
                 supplier_reliability := snd ks |})
           (combine features_index supplier)).

Section WithSqrt.
Variable Qsqrt : Q -> Q.

Definition demand_cv_column (df : list sales_row) : series :=
  let cv :=
    map (fun kg =>
           let s := map sales (snd kg) in
           (fst kg, fdiv (Pd.std Qsqrt s) (Pd.mean s)))
        (by_entity df) in
  map_values (fun x => Pd.replace_inf (Fin 0) (Pd.fillna (Fin 0) x)) cv.

Definition _calculate_seasonality_strength (df : list sales_row) : series :=
  let monthly : list (key3 * float64) :=
    map (fun kg => (fst kg, Pd.mean (map sales (snd kg))))
        (Pd.groupby (fun r => (entity r, month (date r))) key3_eqb key3_leb df) in
  let seasonal_cv : series :=
    map (fun kg => (fst kg, Pd.std Qsqrt (map snd (snd kg))))
        (Pd.groupby (fun km : key3 * float64 => fst (fst km))
                    key2_eqb key2_leb monthly) in
  let overall_mean : series :=
    map (fun kg => (fst kg, Pd.mean (map sales (snd kg)))) (by_entity df) in
  let seasonality :=
    map (fun kv =>
           (fst kv,
            Pd.fillna (Fin 0) (fdiv (snd kv) (loc_or_nan overall_mean (fst kv)))))
        seasonal_cv in
  map_values (Pd.clip (Fin 0) (Fin 1)) seasonality.

Definition prepare_features (g : RandomState) (df : list sales_row)
  : result (list feature_row * RandomState) :=
  let revenue_s := revenue_contribution_column df in
  let cv_s := demand_cv_column df in
  let seasonality_s := _calculate_seasonality_strength df in
  trend_s <- _calculate_trend_slope df ;;
  stockout_s <- _calculate_stockout_frequency df ;;
  let (supplier, g') := supplier_reliability_column g (features_index df) in
  Ok (assemble_features (features_index df) revenue_s cv_s seasonality_s
                        trend_s stockout_s supplier,
      g').
End WithSqrt.

(** What the specification calls the exogenous supplier reliability of an
    entity: the value the caller's table carries for it in a column named
    [supplier_reliability] (read off the first row of the entity), missing
    when the table has no such column.  No line of the module reads it; the
    definition is here to compare it with what line 96 stores. *)
Definition supplied_supplier_reliability (df : list sales_row) : list float64 :=
  map (fun kg =>
         match snd kg with
         | [] => NaN
         | r :: _ =>
             match find (fun cv => (fst cv =? "supplier_reliability")%string) (extra r) with
             | Some cv => snd cv
             | None => NaN
             end
         end)
      (by_entity df).

(** The columns of the caller's table that [prepare_features] and its
    helpers read; a row stripped of every other column. *)
Definition read_columns (r : sales_row) : sales_row :=
  {| item_id := item_id r; store_id := store_id r; revenue := revenue r;
     sales := sales r; date := date r; extra := [] |}.

(** ** The model object and scikit-learn's estimators *)

Definition matrix : Type := list (list float64).

Definition to_matrix (features : list feature_row) : matrix :=
  map (fun r => [revenue_contribution r; demand_cv r; seasonality_strength r;
                 trend_slope r; stockout_frequency r; supplier_reliability r])
      features.

Definition feature_columns : list string :=
  ["revenue_contribution"; "demand_cv"; "seasonality_strength";
   "trend_slope"; "stockout_frequency"; "supplier_reliability"]%string.

Definition n_features (X : matrix) : nat :=
  match X with
  | [] => 0
  | row :: _ => length row
  end.

Definition column (j : nat) (X : matrix) : list float64 :=
  map (fun row => nth j row NaN) X.

(** Fitted attributes of a [StandardScaler]. *)
Record StandardScaler_params : Type := mkScaler {
  mean_ : list float64;
  scale_ : list float64
}.

(** A [StandardScaler] object.  [check_is_fitted] accepts an estimator as
    soon as it has an attribute whose name ends in an underscore, so three
    states are told apart: as constructed; after a [fit] that stopped in
    its input validation, which had recorded the column names
    ([feature_names_in_]) before it checked the cells, whereas the
    statistics of an earlier fit are deleted when [fit] begins; fitted. *)
Inductive StandardScaler_obj : Type :=
| StandardScaler_new
| StandardScaler_named
| StandardScaler_fitted (p : StandardScaler_params).

(** A [KMeans] object: as constructed, which is also what a [fit] leaves
    that stopped in the validation of the cells; after a [fit] that
    validated its input ([n_features_in_] is set) and stopped before any
    centroid was stored; fitted. *)
Inductive KMeans_obj : Type :=
| KMeans_unfitted
| KMeans_validated
| KMeans_fitted (cluster_centers_ : matrix) (labels_ : list nat).

(** The instance fields of [InventorySegmentation]; [kmeans = None] is
    Python's [None]. *)
Record segmenter : Type := mkSegmenter {
  n_clusters : nat;
  random_state : Z;
  scaler : StandardScaler_obj;
  kmeans : option KMeans_obj;
  feature_names : option (list string)
}.

Definition __init__ (n_clusters : nat) (random_state : Z) : segmenter :=
  {| n_clusters := n_clusters;
     random_state := random_state;
     scaler := StandardScaler_new;
     kmeans := None;
     feature_names := None |}.

(** Input validation of the estimators: no sample at all or an infinite
    entry is a [ValueError]; [KMeans] rejects [NaN] as well. *)
Definition check_array (allow_nan : bool) (X : matrix) : result matrix :=
  match X with
  | [] => Raise ValueError
  | _ =>
      if forallb (forallb (fun x => isfinite x || (allow_nan && isnan x))) X
      then Ok X
      else Raise ValueError
  end.

Definition standardize (p : StandardScaler_params) (X : matrix) : matrix :=
  map (fun row =>
         map (fun xms => fdiv (fsub (fst (fst xms)) (snd (fst xms))) (snd xms))
             (combine (combine row (mean_ p)) (scale_ p)))
      X.

(** [StandardScaler.transform]: [check_is_fitted] comes first, then the
    validation of the input, then the arithmetic on [mean_] and [scale_],
    attributes that a scaler without statistics does not have. *)
Definition StandardScaler_transform (sc : StandardScaler_obj) (X : matrix)
  : result matrix :=
  match sc with
  | StandardScaler_new => Raise NotFittedError
  | StandardScaler_named =>
      X <- check_array true X ;;
      Raise AttributeError
  | StandardScaler_fitted p =>
      X <- check_array true X ;;
      Ok (standardize p X)
  end.

Definition sqdist (x c : list float64) : float64 :=
  Pd.np_sum (map (fun xc => fsquare (fsub (fst xc) (snd xc))) (combine x c)).

(** Index of the least value, the lowest index among equal ones. *)
Fixpoint argmin_from (i best : nat) (bestv : float64) (l : list float64) : nat :=
  match l with
  | [] => best
  | v :: r =>
      if flt v bestv then argmin_from (S i) i v r
      else argmin_from (S i) best bestv r
  end.

Definition argmin (l : list float64) : nat :=
  match l with
  | [] => 0%nat
  | v :: r => argmin_from 1 0 v r
  end.

Definition nearest_center (centers : matrix) (x : list float64) : nat :=
  argmin (map (sqdist x) centers).

(** [KMeans.predict], called on whatever [self.kmeans] holds:
    [check_is_fitted], the validation of the input, then the distances to
    [cluster_centers_], an attribute only a completed [fit] has set. *)
Definition KMeans_predict (km : option KMeans_obj) (X : matrix) : result (list nat) :=
  match km with
  | None => Raise AttributeError
  | Some KMeans_unfitted => Raise NotFittedError
  | Some KMeans_validated =>
      X <- check_array false X ;;
      Raise AttributeError
  | Some (KMeans_fitted centers _) =>
      X <- check_array false X ;;
      Ok (map (nearest_center centers) X)
  end.

Definition predict (self : segmenter) (features : list feature_row)
  : result (list nat) :=
  features_scaled <- StandardScaler_transform (scaler self) (to_matrix features) ;;
  KMeans_predict (kmeans self) features_scaled.

(** ** Business labels *)

Record cluster_means : Type := mkMeans {
  cm_revenue_contribution : float64;
  cm_demand_cv : float64;
  cm_seasonality_strength : float64;
  cm_trend_slope : float64
}.

(** [cluster_df.groupby('cluster').agg(... 'mean')]: one row per cluster
    id that occurs in [clusters], in ascending order of the id. *)
Definition cluster_stats_of (cluster_df : list (feature_row * nat))
  : list (nat * cluster_means) :=
  map (fun kg =>
         let rows := map fst (snd kg) in
         (fst kg,
          {| cm_revenue_contribution := Pd.mean (map revenue_contribution rows);
             cm_demand_cv := Pd.mean (map demand_cv rows);
             cm_seasonality_strength := Pd.mean (map seasonality_strength rows);
             cm_trend_slope := Pd.mean (map trend_slope rows) |}))
      (Pd.groupby (fun rc : feature_row * nat => snd rc) Nat.eqb Nat.leb cluster_df).

(** [Series.quantile(q)]: linear interpolation between the two order
    statistics around position [(n - 1) * q] of the non-missing values. *)
Definition quantile (q : Q) (l : list float64) : float64 :=
  let v := Pd.sort_values fle (Pd.dropna l) in
  match v with
  | [] => NaN
  | _ =>
      let pos := inject_Z (Z.of_nat (length v - 1)) * q in
      let lo := Z.to_nat (Qfloor pos) in
      let hi := Nat.min (S lo) (length v - 1) in
      let a := nth lo v NaN in
      let b := nth hi v NaN in
      fadd a (fmul (fsub b a) (fin (pos - inject_Z (Qfloor pos))))
  end.

Definition value_label (revenue q67 q33 : float64) : string :=
  if fgt revenue q67 then "Premium"
  else if fgt revenue q33 then "Mid-Tier"
  else "Budget".

Definition stability_label (cv : float64) : string :=
  if flt cv (Fin 0.5) then "Stable"
  else if flt cv (Fin 1.0) then "Moderate"
  else "Volatile".

(** The body of the loop at lines 241-259 for one cluster id; [.loc] on a
    label that is not in the index of [cluster_stats] is a [KeyError]. *)
Definition label_of (cluster_stats : list (nat * cluster_means)) (cluster : nat)
  : result string :=
  match Pd.lookup Nat.eqb cluster cluster_stats with
  | None => Raise (KeyError (Z.of_nat cluster))
  | Some stats =>
      let revenues := map (fun cs => cm_revenue_contribution (snd cs)) cluster_stats in
      let value := value_label (cm_revenue_contribution stats)
                               (quantile 0.67 revenues) (quantile 0.33 revenues) in
      let stability := stability_label (cm_demand_cv stats) in
      Ok (value ++ "-" ++ stability)%string
  end.

(** The loop itself: the dictionary [labels], filled in the order of
    [range(n_clusters)]. *)
Fixpoint label_clusters (cluster_stats : list (nat * cluster_means)) (ids : list nat)
  : result (list (nat * string)) :=
  match ids with
  | [] => Ok []
  | cluster :: rest =>
      lab <- label_of cluster_stats cluster ;;
      labels <- label_clusters cluster_stats rest ;;
      Ok ((cluster, lab) :: labels)
  end.

(** [None] in the returned series is the missing value [map] leaves for an
    id that is not a key of [labels]. *)
Definition assign_business_labels (self : segmenter)
    (features : list feature_row) (clusters : list nat)
  : result (list (option string)) :=
  if negb (length clusters =? length features)%nat then Raise ValueError
  else
    let cluster_df := combine features clusters in
    let cluster_stats := cluster_stats_of cluster_df in
    labels <- label_clusters cluster_stats (seq 0 (n_clusters self)) ;;
    Ok (map (fun c => Pd.lookup Nat.eqb c labels) clusters).

Section WithSklearn.
Variable Qsqrt : Q -> Q.
(** Lloyd's iterations with their seeded initialisations
    ([n_init] restarts, at most [max_iter] rounds each), as a function of
    the seed, the number of clusters and the data: the centroids kept. *)
Variable kmeans_centers : Z -> nat -> nat -> nat -> matrix -> matrix.
Variable silhouette_score : matrix -> list nat -> result float64.
Variable davies_bouldin_score : matrix -> list nat -> result float64.

(** [StandardScaler.fit]: per-column mean and population deviation over
    the non-missing entries, a zero deviation replaced by 1. *)
Definition StandardScaler_fit (X : matrix) : result StandardScaler_params :=
  X <- check_array true X ;;
  let cols := map (fun j => column j X) (seq 0 (n_features X)) in
  Ok {| mean_ := map Pd.mean cols;
        scale_ := map (fun c =>
                         let s := Pd.std_ddof Qsqrt 0 c in
                         if feqb s (Fin 0) then Fin 1 else s)
                      cols |}.

(** [KMeans.fit]: the object as the call leaves it, and the outcome.  The
    cells are validated first, then the number of samples is compared with
    the number of clusters. *)
Definition KMeans_fit (n_clusters : nat) (random_state : Z) (n_init max_iter : nat)
    (X : matrix) : KMeans_obj * result unit :=
  match check_array false X with
  | Raise e => (KMeans_unfitted, Raise e)
  | Ok X =>
      if (length X <? n_clusters)%nat then (KMeans_validated, Raise ValueError)
      else
        let centers := kmeans_centers random_state n_clusters n_init max_iter X in
        (KMeans_fitted centers (map (nearest_center centers) X), Ok tt)
  end.

(** [fit] mutates [self]; the fields keep what was assigned before an
    exception left the method: the column names first; the scaler, fitted
    once [fit_transform] has returned and left with the column names alone
    when its validation failed; then the new [KMeans] object in the state
    its own [fit] left it in. *)
Definition fit (self : segmenter) (features : list feature_row)
  : segmenter * result unit :=
  let self1 :=
    {| n_clusters := n_clusters self; random_state := random_state self;
       scaler := StandardScaler_named; kmeans := kmeans self;
       feature_names := Some feature_columns |} in
  let X := to_matrix features in
  match StandardScaler_fit X with
  | Raise e => (self1, Raise e)
  | Ok p =>
      let features_scaled := standardize p X in
      let (km, fitted) :=
        KMeans_fit (n_clusters self) (random_state self) 10 300 features_scaled in
      let self2 :=
        {| n_clusters := n_clusters self; random_state := random_state self;
           scaler := StandardScaler_fitted p; kmeans := Some km;
           feature_names := Some feature_columns |} in
      match fitted with
      | Raise e => (self2, Raise e)
      | Ok _ =>
          let labels :=
            match km with
            | KMeans_fitted _ l => l
            | _ => []
            end in
          (self2,
           _ <- silhouette_score features_scaled labels ;;
           _ <- davies_bouldin_score features_scaled labels ;;
           Ok tt)
      end
  end.

(** The three calls of path B in the order [main] makes them, on a fresh
    object, starting from generator state [g]. *)
Definition run_pipeline (n_clusters : nat) (random_state : Z)
    (g : RandomState) (df : list sales_row)
  : result (list feature_row * segmenter * list nat) :=
  let segmenter0 := __init__ n_clusters random_state in
  fg <- prepare_features Qsqrt g df ;;
  let features := fst fg in
  let (segmenter1, fitted) := fit segmenter0 features in
  _ <- fitted ;;
  clusters <- predict segmenter1 features ;;
  Ok (features, segmenter1, clusters).
End WithSklearn.


End InventorySegmentation.

(** * Concrete tables

    Small inputs on which the statements below are evaluated. *)

Module Samples.

Definition jan (d : Z) : Timestamp := mkTimestamp 2024 1 d.

(** Three entities for the classifier: S1/I1 sells 3, 0, 5; S1/I0 never
    sells; S0/I9 sells once. *)
Definition sample_sales : list DemandClassifier.sales_row :=
  [ DemandClassifier.mkSales (Some (jan 1)) "S1" "I1" (Fin 3);
    DemandClassifier.mkSales (Some (jan 2)) "S1" "I1" (Fin 0);
    DemandClassifier.mkSales (Some (jan 3)) "S1" "I1" (Fin 5);
    DemandClassifier.mkSales (Some (jan 1)) "S1" "I0" (Fin 0);
    DemandClassifier.mkSales (Some (jan 1)) "S0" "I9" (Fin 4) ]%string.


(** One entity whose only row has no date. *)
Definition sample_all_undated : list DemandClassifier.sales_row :=
  [ DemandClassifier.mkSales None "S1" "I1" (Fin 3) ]%string.


Import InventorySegmentation.

Definition history_row (item store : string) (rev qty : Q) (m d : Z) : sales_row :=
  mkSales item store (Fin rev) (Fin qty) (mkTimestamp 2024 m d) [].

(** Entity A/CA has twelve observations with sales 0, 1, 4, ..., 121;
    B/CA has two and C/TX one. *)
Definition sample_row_B : sales_row := history_row "B" "CA" 1 0 1 1.

Definition sample_history : list sales_row :=
  map (fun n : nat =>
         history_row "A" "CA" 10 (inject_Z (Z.of_nat (n * n)))
                     (1 + Z.of_nat n / 4) (Z.of_nat n))
      (seq 0 12)
  ++ [ sample_row_B; history_row "B" "CA" 2 4 2 1; history_row "C" "TX" 7 0 1 1 ].

(** One entity for which the caller's table carries a supplier
    reliability of 0.5, and the same entity with 0.9. *)
Definition sample_supplied : list sales_row :=
  [ mkSales "A" "CA" (Fin 10) (Fin 3) (jan 1) [("supplier_reliability"%string, Fin 0.5)] ].

Definition sample_supplied' : list sales_row :=
  [ mkSales "A" "CA" (Fin 10) (Fin 3) (jan 1) [("supplier_reliability"%string, Fin 0.9)] ].

(** A generator whose raw outputs are 0, 2^52, 2 * 2^52, ...: its doubles
    alternate between 0 and 1/2. *)
Definition sample_generator : RandomState :=
  {| stream := fun i => (Z.of_nat i * 4503599627370496)%Z; position := 0 |}.

Definition sample_feature (item : string) (rev cv : Q) : feature_row :=
  mkFeature (item, "CA"%string) (Fin rev) (Fin cv) (Fin 0) (Fin 0) (Fin 0) (Fin 0.8).

(** Two entities with the same revenue, one per cluster. *)
Definition sample_equal_features : list feature_row :=
  [ sample_feature "A" 5 0.2; sample_feature "B" 5 0.7 ].

(** Three entities with revenues 1, 5 and 9. *)
Definition sample_features : list feature_row :=
  [ sample_feature "A" 1 0.2; sample_feature "B" 5 0.7; sample_feature "C" 9 1.7 ].

(** Stand-ins for the scikit-learn parameters. *)
Definition sample_centers (seed : Z) (k n_init max_iter : nat) (X : matrix) : matrix :=
  firstn k X.

Definition sample_score (X : matrix) (labels : list nat) : result float64 :=
  Ok (Fin 0).

End Samples.

(** * Further concrete tables *)

Module MoreSamples.
Import Samples.
Import InventorySegmentation.

Definition sample_stats_I0 : DemandClassifier.stats_row :=
  nth 1 (DemandClassifier.calculate_features Qsqrt_floor sample_sales)
      (DemandClassifier.mkStats "" "" NaN 0 0 NaN NaN NaN NaN NaN).

Definition sample_stats_I9 : DemandClassifier.stats_row :=
  nth 0 (DemandClassifier.calculate_features Qsqrt_floor sample_sales)
      (DemandClassifier.mkStats "" "" NaN 0 0 NaN NaN NaN NaN NaN).

Definition sample_classified : list (DemandClassifier.stats_row * string) :=
  DemandClassifier.classify_patterns
    (DemandClassifier.calculate_features Qsqrt_floor sample_sales).

(** Entity K/CA sells 7 on each of twelve days of one month; the rising
    entity A/CA of [sample_history] is in the table as well. *)
Definition sample_row_K : sales_row := history_row "K" "CA" 1 7 1 0.

Definition sample_constant_history : list sales_row :=
  map (fun n : nat => history_row "K" "CA" 1 7 1 (Z.of_nat n)) (seq 0 12)
  ++ map (fun n : nat =>
            history_row "A" "CA" 10 (inject_Z (Z.of_nat (n * n)))
                        (1 + Z.of_nat n / 4) (Z.of_nat n))
         (seq 0 12).

(** Entity C/TX of [sample_history]: one observation, no sale. *)
Definition sample_row_C : sales_row := history_row "C" "TX" 7 0 1 1.

(** Entity A/CA of [sample_history], whose slope is the largest: its first
    observation. *)
Definition sample_row_A : sales_row := history_row "A" "CA" 10 0 1 0.

End MoreSamples.

(** * Facts about cells, lists and groupings *)

Lemma Qltb_true (a b : Q) : Qltb a b = true <-> a < b.
Proof.
  unfold Qltb. rewrite negb_true_iff. split; intro H.
  - apply Qnot_le_lt. intro Hle. apply Qle_bool_iff in Hle. congruence.
  - destruct (Qle_bool b a) eqn:E; [|reflexivity].
    apply Qle_bool_iff in E. exfalso. apply (Qlt_not_le _ _ H E).
Qed.

Lemma Qltb_false (a b : Q) : Qltb a b = false <-> b <= a.
Proof.
  unfold Qltb. rewrite negb_false_iff. apply Qle_bool_iff.
Qed.

Lemma fdiv_zero_l (y : float64) : fdiv (Fin 0) y = Fin 0 \/ fdiv (Fin 0) y = NaN.
Proof.
  destruct y as [b| | |]; simpl; auto.
  destruct (Qeq_bool b 0); [right|left]; reflexivity.
Qed.


Section ListFacts.
Variable A : Type.

Lemma insert_sorted_perm (leb : A -> A -> bool) (x : A) (l : list A) :
  Permutation (Pd.insert_sorted leb x l) (x :: l).
Proof.
  induction l as [|y r IH]; simpl.
  - apply Permutation_refl.
  - destruct (leb x y).
    + apply Permutation_refl.
    + apply perm_trans with (y :: x :: r).
      * apply perm_skip, IH.
      * apply perm_swap.
Qed.

Lemma sort_values_perm (leb : A -> A -> bool) (l : list A) :
  Permutation (Pd.sort_values leb l) l.
Proof.
  induction l as [|x r IH]; simpl.
  - apply perm_nil.
  - eapply perm_trans; [apply insert_sorted_perm|].
    apply perm_skip, IH.
Qed.

Lemma filter_perm (p : A -> bool) (l l' : list A) :
  Permutation l l' -> Permutation (filter p l) (filter p l').
Proof.
  induction 1 as [|x l l' _ IH|x y l|l l' l'' _ IH1 _ IH2]; simpl.
  - apply perm_nil.
  - destruct (p x); [apply perm_skip|]; exact IH.
  - destruct (p x), (p y); try apply Permutation_refl. apply perm_swap.
  - eapply perm_trans; eassumption.
Qed.

Lemma filter_filter_comm (p q : A -> bool) (l : list A) :
  filter p (filter q l) = filter q (filter p l).
Proof.
  induction l as [|x r IH]; simpl; [reflexivity|].
  destruct (q x) eqn:Eq, (p x) eqn:Ep; simpl; rewrite ?Eq, ?Ep, IH; reflexivity.
Qed.

Lemma filter_length_sorted (leb : A -> A -> bool) (p : A -> bool) (l : list A) :
  length (filter p (Pd.sort_values leb l)) = length (filter p l).
Proof.
  apply Permutation_length, filter_perm, sort_values_perm.
Qed.
End ListFacts.

Lemma combine_snd (A B : Type) (l : list A) (l' : list B) :
  length l' = length l -> map snd (combine l l') = l'.
Proof.
  revert l'. induction l as [|a l IH]; intros [|b l'] H; simpl in *;
    try discriminate; [reflexivity|].
  f_equal. apply IH. lia.
Qed.

Lemma key2_eqb_eq (a b : key2) : key2_eqb a b = true <-> a = b.
Proof.
  destruct a as [a1 a2], b as [b1 b2]; unfold key2_eqb; simpl.
  rewrite andb_true_iff, !String.eqb_eq. split.
  - intros [-> ->]; reflexivity.
  - intros H; inversion H; auto.
Qed.

Section GroupByFacts.
Variables A K : Type.
Variable key : A -> K.
Variables keqb kleb : K -> K -> bool.
Hypothesis keqb_eq : forall a b, keqb a b = true <-> a = b.

Lemma in_insert_key (k x : K) (ks : list K) :
  In x (Pd.insert_key keqb kleb k ks) <-> x = k \/ In x ks.
Proof.
  induction ks as [|k' r IH]; simpl.
  - intuition.
  - destruct (keqb k k') eqn:E.
    + apply keqb_eq in E; subst k'. simpl. intuition.
    + destruct (kleb k k'); simpl; [intuition|].
      rewrite IH. intuition.
Qed.

Lemma in_unique_keys (x : K) (l : list A) :
  In x (Pd.unique_keys key keqb kleb l) <-> exists r, In r l /\ key r = x.
Proof.
  induction l as [|a r IH]; simpl.
  - split; [tauto|intros [? [[] _]]].
  - rewrite in_insert_key, IH. split.
    + intros [->|[b [Hb <-]]]; eauto.
    + intros [b [[<-|Hb] <-]]; eauto.
Qed.

Lemma in_groupby (k : K) (g : list A) (l : list A) :
  In (k, g) (Pd.groupby key keqb kleb l) ->
  g = Pd.group_rows key keqb k l /\ exists r, In r l /\ key r = k.
Proof.
  unfold Pd.groupby. rewrite in_map_iff. intros [k' [E Hk]].
  inversion E; subst. split; [reflexivity|].
  apply in_unique_keys; assumption.
Qed.

Lemma lookup_some (V : Type) (k : K) (s : list (K * V)) (v : V) :
  Pd.lookup keqb k s = Some v -> In (k, v) s.
Proof.
  unfold Pd.lookup. destruct (find _ s) as [[k' v']|] eqn:E; [|discriminate].
  intros H; inversion H; subst. apply find_some in E. destruct E as [Hin Hk].
  simpl in Hk. apply keqb_eq in Hk. subst. exact Hin.
Qed.

Lemma lookup_none (V : Type) (k : K) (s : list (K * V)) :
  Pd.lookup keqb k s = None -> forall v, ~ In (k, v) s.
Proof.
  unfold Pd.lookup. destruct (find _ s) as [[k' v']|] eqn:E; [discriminate|].
  intros _ v Hin. apply (find_none _ _ E) in Hin. simpl in Hin.
  assert (keqb k k = true) by (apply keqb_eq; reflexivity). congruence.
Qed.
End GroupByFacts.

(** * Properties of [DemandClassifier] *)

Module DemandClassifierProofs.
Import DemandClassifier.

(** The rows of the result: one per group of the sorted frame. *)
Lemma in_calculate_features (Qsqrt : Q -> Q) (df : list sales_row) (r : stats_row) :
  In r (calculate_features Qsqrt df) ->
  exists k nz_stats,
    let sorted := Pd.sort_values sales_leb df in
    r = stats_of nz_stats (k, Pd.group_rows entity key2_eqb k sorted)
    /\ (exists row, In row df /\ entity row = k)
    /\ nz_stats =
         map (fun kg =>
                (fst kg, (Pd.mean (map total_sales (snd kg)),
                          Pd.std Qsqrt (map total_sales (snd kg)))))
             (Pd.groupby entity key2_eqb key2_leb (filter positive_sale sorted)).
Proof.
  unfold calculate_features. rewrite in_map_iff.
  intros [[k g] [Hr Hin]].
  apply in_groupby in Hin; [|exact key2_eqb_eq]. destruct Hin as [Hg [row [Hrow Hk]]].
  exists k. eexists. simpl. repeat split.
  - subst g. symmetry. exact Hr.
  - exists row. split; [|exact Hk].
    apply (Permutation_in _ (sort_values_perm sales_leb df)). exact Hrow.
Qed.

Lemma dropna_positive (l : list sales_row) :
  Pd.dropna (map total_sales (filter positive_sale l))
  = map total_sales (filter positive_sale l).
Proof.
  induction l as [|x r IH]; simpl; [reflexivity|].
  destruct (positive_sale x) eqn:E; simpl; [|exact IH].
  unfold positive_sale, fgt in E.
  destruct (total_sales x); simpl in *; try discriminate; rewrite ?IH; reflexivity.
Qed.

(** With at most one positive sale the sample deviation of the positive
    sales is undefined. *)
Lemma nz_std_undefined (Qsqrt : Q -> Q) (l : list sales_row) :
  (length (filter positive_sale l) <= 1)%nat ->
  Pd.std Qsqrt (map total_sales (filter positive_sale l)) = NaN.
Proof.
  intro H. unfold Pd.std, Pd.std_ddof.
  rewrite dropna_positive, length_map.
  destruct (Nat.leb_spec (length (filter positive_sale l)) 1); [reflexivity|lia].
Qed.

Lemma CV2_zero_of_std (m : float64) :
  Pd.fillna (Fin 0) (fsquare (fdiv (Fin 0) m)) = Fin 0.
Proof.
  destruct (fdiv_zero_l m) as [-> | ->]; reflexivity.
Qed.

Lemma of_nat_div (n m : nat) :
  (1 <= m)%nat ->
  fdiv (of_nat n) (of_nat m)
  = fin (inject_Z (Z.of_nat n) / inject_Z (Z.of_nat m)).
Proof.
  intro Hm. unfold of_nat, fin, fdiv.
  destruct (Qeq_bool (Qred (inject_Z (Z.of_nat m))) 0) eqn:E.
  - apply Qeq_bool_iff in E. rewrite Qred_correct in E.
    unfold Qeq in E; simpl in E. lia.
  - apply (f_equal Fin), Qred_complete. rewrite !Qred_correct. reflexivity.
Qed.


Lemma group_rows_length_sorted (k : key2) (df : list sales_row) :
  length (Pd.group_rows entity key2_eqb k (Pd.sort_values sales_leb df))
  = length (Pd.group_rows entity key2_eqb k df).
Proof. apply filter_length_sorted. Qed.


(** The merged deviation of an entity with at most one positive sale is
    missing, whether or not [nz_stats] has a row for it. *)
Lemma merged_std_missing (Qsqrt : Q -> Q) (k : key2) (sorted : list sales_row) :
  (length (filter positive_sale (Pd.group_rows entity key2_eqb k sorted)) <= 1)%nat ->
  snd match
        Pd.lookup key2_eqb k
          (map (fun kg =>
                  (fst kg, (Pd.mean (map total_sales (snd kg)),
                            Pd.std Qsqrt (map total_sales (snd kg)))))
               (Pd.groupby entity key2_eqb key2_leb (filter positive_sale sorted)))
      with
      | Some ms => ms
      | None => (NaN, NaN)
      end = NaN.
Proof.
  intro Hlen.
  destruct (Pd.lookup _ _ _) as [ms|] eqn:E; [|reflexivity].
  apply lookup_some in E; [|exact key2_eqb_eq].
  apply in_map_iff in E. destruct E as [[k' g'] [Hms Hin]].
  apply in_groupby in Hin; [|exact key2_eqb_eq].
  destruct Hin as [Hg _]. simpl in Hms. inversion Hms; subst k' ms g'. simpl.
  unfold Pd.group_rows in *. rewrite filter_filter_comm.
  apply nz_std_undefined. exact Hlen.
Qed.

(** C1.  For every finite pair (ADI, CV2), in particular every
    non-negative one, [get_category] answers Smooth when ADI < 1.32 and
    CV2 < 0.49, Erratic when ADI < 1.32 and CV2 >= 0.49, Intermittent when
    ADI >= 1.32 and CV2 < 0.49, Lumpy when ADI >= 1.32 and CV2 >= 0.49.  The
    comparisons are strict: a value equal to a threshold takes the
    not-below branch, and [get_category 1.32 0.1] is Intermittent. *)
Theorem get_category_table (adi cv2 : Q) :
  (adi < 1.32 -> cv2 < 0.49 -> get_category (Fin adi) (Fin cv2) = "Smooth"%string)
  /\ (adi < 1.32 -> 0.49 <= cv2 -> get_category (Fin adi) (Fin cv2) = "Erratic"%string)
  /\ (1.32 <= adi -> cv2 < 0.49 -> get_category (Fin adi) (Fin cv2) = "Intermittent"%string)
  /\ (1.32 <= adi -> 0.49 <= cv2 -> get_category (Fin adi) (Fin cv2) = "Lumpy"%string)
  /\ get_category (Fin 1.32) (Fin 0.1) = "Intermittent"%string.
Proof.
  unfold get_category, flt.
  repeat split; try reflexivity; intros Ha Hc;
    repeat match goal with
           | H : _ < _ |- _ => apply Qltb_true in H; rewrite H; clear H
           | H : _ <= _ |- _ => apply Qltb_false in H; rewrite H; clear H
           end; reflexivity.
Qed.

(** On any two cells, missing and infinite ones included, the answer is
    one of the four patterns. *)
Lemma get_category_total (adi cv2 : float64) :
  In (get_category adi cv2)
     ["Smooth"; "Erratic"; "Intermittent"; "Lumpy"]%string.
Proof.
  unfold get_category.
  destruct (flt adi (Fin 1.32)), (flt cv2 (Fin 0.49)); simpl; auto.
Qed.

(** The four scenarios of the specification. *)
Example get_category_scenarios :
  get_category (Fin 1.0) (Fin 0.3) = "Smooth"%string
  /\ get_category (Fin 1.0) (Fin 0.8) = "Erratic"%string
  /\ get_category (Fin 2.0) (Fin 0.2) = "Intermittent"%string
  /\ get_category (Fin 2.0) (Fin 0.9) = "Lumpy"%string.
Proof. repeat split; reflexivity. Qed.

(** [classify_patterns] applies the table to every row, in order. *)
Lemma classify_patterns_rows (df : list stats_row) :
  map snd (classify_patterns df)
  = map (fun row => get_category (ADI row) (CV2 row)) df
  /\ map fst (classify_patterns df) = df.
Proof.
  unfold classify_patterns. rewrite !map_map. simpl. split; [reflexivity|].
  apply map_id.
Qed.


Lemma dated_rows_length_sorted (k : key2) (df : list sales_row) :
  length (filter dated
            (Pd.group_rows entity key2_eqb k (Pd.sort_values sales_leb df)))
  = length (filter dated (Pd.group_rows entity key2_eqb k df)).
Proof.
  unfold Pd.group_rows.
  apply Permutation_length, filter_perm, filter_perm, sort_values_perm.
Qed.


Lemma filter_none (A : Type) (p : A -> bool) (l : list A) :
  (forall x, In x l -> p x = false) -> filter p l = [].
Proof.
  induction l as [|x r IH]; simpl; intro H; [reflexivity|].
  rewrite (H x) by (left; reflexivity). apply IH.
  intros y Hy. apply H. right. exact Hy.
Qed.


(** C6, as the code has it.  [calculate_features] fails on no table: the
    table without observations yields the empty statistics table, the rows
    of the result are the entities of the input, each with its row, and an
    entity none of whose rows carries a date has its row all the same, with
    [num_observations] 0. *)
Theorem calculate_features_rows (Qsqrt : Q -> Q) (df : list sales_row) :
  calculate_features Qsqrt [] = []
  /\ (forall r, In r (calculate_features Qsqrt df) ->
        exists row, In row df /\ entity row = (st_store_id r, st_item_id r))
  /\ (forall row, In row df ->
        exists r, In r (calculate_features Qsqrt df)
                  /\ (st_store_id r, st_item_id r) = entity row)
  /\ (forall r, In r (calculate_features Qsqrt df) ->
        (forall row, In row df -> entity row = (st_store_id r, st_item_id r) ->
                     date row = None) ->
        num_observations r = 0%nat).
Proof.
  split; [reflexivity|]. split; [|split].
  - intros r Hin. apply in_calculate_features in Hin.
    destruct Hin as [k [nz_stats [Hr [[row [Hrow Hk]] _]]]]. subst r.
    exists row. split; [exact Hrow|]. rewrite Hk. destruct k. reflexivity.
  - intros row Hrow. unfold calculate_features.
    eexists. split.
    + apply in_map. unfold Pd.groupby. apply in_map.
      apply in_unique_keys; [exact key2_eqb_eq|].
      exists row. split; [|reflexivity].
      apply (Permutation_in _ (Permutation_sym (sort_values_perm sales_leb df))).
      exact Hrow.
    + reflexivity.
  - intros r Hin Hnone. apply in_calculate_features in Hin.
    destruct Hin as [k [nz_stats [Hr [_ _]]]]. subst r.
    destruct k as [s i]. unfold stats_of in *.
    cbn [num_observations st_store_id st_item_id fst snd] in *.
    rewrite dated_rows_length_sorted. rewrite filter_none; [reflexivity|].
    intros x Hx. apply filter_In in Hx. destruct Hx as [Hx Hk].
    apply key2_eqb_eq in Hk. unfold dated. rewrite (Hnone x Hx Hk). reflexivity.
Qed.

End DemandClassifierProofs.

(** * Properties of [InventorySegmentation]: feature engineering *)

Module FeatureProofs.
Import InventorySegmentation.

Lemma fillna_fdiv_zero (y : float64) :
  Pd.fillna (Fin 0) (fdiv (Fin 0) y) = Fin 0.
Proof.
  destruct (fdiv_zero_l y) as [-> | ->]; reflexivity.
Qed.

Lemma calculate_slope_short (group : list sales_row) :
  (length group < 10)%nat -> calculate_slope group = Fin 0.
Proof.
  intro H. unfold calculate_slope.
  destruct (Nat.ltb_spec (length group) 10); [reflexivity|lia].
Qed.

(** Every entry of the trend series comes from the group of its entity. *)
Lemma in_trend_slope (df : list sales_row) (k : key2) (v : float64) :
  In (k, v) (normalised_slopes df) ->
  exists denom,
    v = Pd.fillna (Fin 0)
          (fdiv (calculate_slope (Pd.group_rows entity key2_eqb k df)) denom).
Proof.
  unfold normalised_slopes, map_values. rewrite !map_map. simpl.
  rewrite in_map_iff. intros [[k' g] [E Hin]]. simpl in E.
  apply in_groupby in Hin; [|exact key2_eqb_eq]. destruct Hin as [-> _].
  inversion E; subst. eexists. reflexivity.
Qed.

Lemma trend_slope_has_entity (df : list sales_row) (row : sales_row) :
  In row df -> exists v, In (entity row, v) (normalised_slopes df).
Proof.
  intro Hrow. unfold normalised_slopes, map_values. rewrite !map_map. simpl.
  eexists. apply in_map_iff.
  exists (entity row, Pd.group_rows entity key2_eqb (entity row) df).
  split; [reflexivity|].
  unfold by_entity, Pd.groupby.
  apply (in_map (fun k => (k, Pd.group_rows entity key2_eqb k df))).
  apply in_unique_keys; [exact key2_eqb_eq|]. exists row. auto.
Qed.

(** On a table with a row the method returns the normalised slopes. *)
Lemma trend_slope_returns (df : list sales_row) :
  df <> [] -> _calculate_trend_slope df = Ok (normalised_slopes df).
Proof. destruct df; [congruence|reflexivity]. Qed.

(** C8.  An entity with fewer than 10 observations has slope 0 before the
    normalisation, and the series returned after the division by the
    largest absolute slope plus 1e-10 holds exactly 0 for it; the final
    cleaning of the feature frame leaves that 0 as it is. *)
Theorem trend_slope_short_series (df : list sales_row) (row : sales_row) :
  In row df ->
  (length (Pd.group_rows entity key2_eqb (entity row) df) < 10)%nat ->
  calculate_slope (Pd.group_rows entity key2_eqb (entity row) df) = Fin 0
  /\ exists slopes,
       _calculate_trend_slope df = Ok slopes
       /\ (forall v, In (entity row, v) slopes -> v = Fin 0)
       /\ loc_or_nan slopes (entity row) = Fin 0
       /\ clean (loc_or_nan slopes (entity row)) = Fin 0.
Proof.
  intros Hrow Hshort.
  assert (Hall : forall v, In (entity row, v) (normalised_slopes df) -> v = Fin 0).
  { intros v Hin. apply in_trend_slope in Hin. destruct Hin as [denom ->].
    rewrite calculate_slope_short by exact Hshort. apply fillna_fdiv_zero. }
  assert (Hloc : loc_or_nan (normalised_slopes df) (entity row) = Fin 0).
  { unfold loc_or_nan.
    destruct (Pd.lookup key2_eqb (entity row) (normalised_slopes df)) as [v|] eqn:E.
    - apply lookup_some in E; [|exact key2_eqb_eq]. apply Hall; exact E.
    - destruct (trend_slope_has_entity df row Hrow) as [v Hv].
      exfalso. revert Hv. apply lookup_none with (keqb := key2_eqb).
      + exact key2_eqb_eq.
      + exact E. }
  split; [apply calculate_slope_short; exact Hshort|].
  exists (normalised_slopes df). split; [|split; [|split]].
  - apply trend_slope_returns. intro E. rewrite E in Hrow. destruct Hrow.
  - exact Hall.
  - exact Hloc.
  - rewrite Hloc. reflexivity.
Qed.

(** ** The random column *)

Lemma random_sample_in_unit (g : RandomState) : in_unit (fst (random_sample g)).
Proof.
  unfold random_sample, in_unit, Qle, Qlt; simpl.
  pose proof (Z.mod_pos_bound (stream g (position g)) two53 eq_refl) as H.
  unfold two53 in *. split; lia.
Qed.

Lemma random_samples_spec (size : nat) (g : RandomState) :
  length (fst (random_samples size g)) = size
  /\ Forall in_unit (fst (random_samples size g))
  /\ position (snd (random_samples size g)) = (position g + size)%nat
  /\ stream (snd (random_samples size g)) = stream g.
Proof.
  revert g. induction size as [|n IH]; intro g.
  - simpl. repeat split; auto.
  - pose proof (random_sample_in_unit g) as Hu.
    change (random_samples (S n) g)
      with (let (u, g1) := random_sample g in
            let (us, g2) := random_samples n g1 in (u :: us, g2)).
    destruct (random_sample g) as [u g1] eqn:E1.
    assert (Hg1 : position g1 = S (position g) /\ stream g1 = stream g).
    { unfold random_sample in E1. inversion E1; subst; simpl; auto. }
    specialize (IH g1). destruct (random_samples n g1) as [us g2]; simpl in *.
    destruct IH as [Hl [Hf [Hp Hs]]]. destruct Hg1 as [Hp1 Hs1].
    repeat split; [congruence|constructor; assumption|lia|congruence].
Qed.

Lemma uniform_07_1 (size : nat) (g : RandomState) :
  length (fst (uniform 0.7 1.0 size g)) = size
  /\ Forall in_07_1 (fst (uniform 0.7 1.0 size g))
  /\ position (snd (uniform 0.7 1.0 size g)) = (position g + size)%nat.
Proof.
  unfold uniform.
  destruct (random_samples_spec size g) as [Hl [Hf [Hp _]]].
  destruct (random_samples size g) as [us g']; simpl in *.
  rewrite length_map. repeat split; [exact Hl| |exact Hp].
  apply Forall_map. revert Hf. apply Forall_impl. intros u [H0 H1].
  eexists. split; [reflexivity|]. rewrite Qred_correct. split; lra.
Qed.

Lemma stockout_frequency_raises (df : list sales_row) :
  _calculate_stockout_frequency df = Raise AttributeError.
Proof. reflexivity. Qed.

Lemma clean_finite (x : float64) : isfinite (clean x) = true.
Proof. destruct x; reflexivity. Qed.

(** The last two statements of [prepare_features] leave no missing and
    no infinite cell in a frame they are applied to. *)
Lemma clean_row_finite (r : feature_row) :
  forallb isfinite
    (let c := clean_row r in
     [revenue_contribution c; demand_cv c; seasonality_strength c;
      trend_slope c; stockout_frequency c; supplier_reliability c]) = true.
Proof.
  simpl. rewrite !clean_finite. reflexivity.
Qed.

Lemma features_index_length (df : list sales_row) :
  length (features_index df) = length (by_entity df).
Proof.
  unfold features_index, revenue_contribution_column. rewrite !length_map.
  reflexivity.
Qed.

Lemma features_index_nonempty (df : list sales_row) :
  df <> [] -> exists n, length (features_index df) = S n.
Proof.
  intro Hne. destruct df as [|row rest]; [congruence|].
  assert (Hin : In (entity row) (features_index (row :: rest))).
  { unfold features_index, revenue_contribution_column, by_entity, Pd.groupby.
    rewrite !map_map. cbn [fst]. rewrite map_id.
    apply in_unique_keys; [exact key2_eqb_eq|]. exists row. simpl. auto. }
  destruct (features_index (row :: rest)) as [|k l]; [destruct Hin|].
  exists (length l). reflexivity.
Qed.

(** The first draw of a non-empty [uniform] and the generator it leaves. *)
Lemma uniform_head (low high : Q) (n : nat) (g : RandomState) :
  exists rest,
    fst (uniform low high (S n) g)
    = fin (low + (high - low)
                 * (stream g (position g) mod two53 # Z.to_pos two53)) :: rest.
Proof.
  unfold uniform.
  change (random_samples (S n) g)
    with (let (u, g1) := random_sample g in
          let (us, g2) := random_samples n g1 in (u :: us, g2)).
  unfold random_sample.
  destruct (random_samples n _) as [us g2]. simpl. eexists. reflexivity.
Qed.

Lemma uniform_state (low high : Q) (n : nat) (g : RandomState) :
  position (snd (uniform low high n g)) = (position g + n)%nat
  /\ stream (snd (uniform low high n g)) = stream g.
Proof.
  unfold uniform.
  destruct (random_samples_spec n g) as [_ [_ [Hp Hs]]].
  destruct (random_samples n g) as [us g']. simpl in *. auto.
Qed.

Lemma uniform_cell_inj (z1 z2 : Z) :
  fin (0.7 + (1.0 - 0.7) * (z1 # Z.to_pos two53))
  = fin (0.7 + (1.0 - 0.7) * (z2 # Z.to_pos two53)) ->
  z1 = z2.
Proof.
  unfold fin. intro H.
  set (d := Z.to_pos two53) in *.
  set (a := 0.7 + (1.0 - 0.7) * (z1 # d)) in *.
  set (b := 0.7 + (1.0 - 0.7) * (z2 # d)) in *.
  assert (Hred : Qred a = Qred b).
  { exact (f_equal (fun x => match x with Fin q => q | _ => 0 end) H). }
  assert (E : a == b).
  { rewrite <- (Qred_correct a), <- (Qred_correct b), Hred. reflexivity. }
  assert (E' : (z1 # d) == (z2 # d)) by (subst a b; lra).
  unfold Qeq in E'. cbn [Qnum Qden] in E'.
  apply Z.mul_reg_r in E'; [exact E'|discriminate].
Qed.

Lemma clean_in_07_1 (x : float64) : in_07_1 x -> clean x = x.
Proof. intros [q [-> _]]. reflexivity. Qed.

(** Every cell of the assembled frame is finite. *)
Lemma assemble_features_finite (idx : list key2)
    (revenue_s cv_s seasonality_s trend_s stockout_s : series)
    (supplier : list float64) (r : feature_row) :
  In r (assemble_features idx revenue_s cv_s seasonality_s trend_s stockout_s supplier) ->
  forallb isfinite
    [revenue_contribution r; demand_cv r; seasonality_strength r;
     trend_slope r; stockout_frequency r; supplier_reliability r] = true.
Proof.
  unfold assemble_features. rewrite in_map_iff. intros [r0 [<- _]].
  apply clean_row_finite.
Qed.

(** The random column reaches the assembled frame unchanged. *)
Lemma assemble_supplier_reliability (idx : list key2)
    (revenue_s cv_s seasonality_s trend_s stockout_s : series)
    (supplier : list float64) :
  length supplier = length idx ->
  Forall in_07_1 supplier ->
  map supplier_reliability
      (assemble_features idx revenue_s cv_s seasonality_s trend_s stockout_s supplier)
  = supplier.
Proof.
  intros Hlen Hall. unfold assemble_features. rewrite !map_map. cbn [supplier_reliability clean_row].
  rewrite <- (combine_snd idx supplier Hlen) at 2.
  apply map_ext_in. intros ks Hin.
  apply clean_in_07_1.
  rewrite Forall_forall in Hall. apply Hall.
  destruct ks as [k x]. exact (in_combine_r idx supplier k x Hin).
Qed.

Section GroupByMap.
Variables A K : Type.
Variable h : A -> A.
Variable key : A -> K.
Variables keqb kleb : K -> K -> bool.
Hypothesis key_h : forall x, key (h x) = key x.

Lemma unique_keys_map (l : list A) :
  Pd.unique_keys key keqb kleb (map h l) = Pd.unique_keys key keqb kleb l.
Proof.
  induction l as [|x r IH]; simpl; [reflexivity|]. rewrite IH, key_h. reflexivity.
Qed.

Lemma group_rows_map (k : K) (l : list A) :
  Pd.group_rows key keqb k (map h l) = map h (Pd.group_rows key keqb k l).
Proof.
  unfold Pd.group_rows. induction l as [|x r IH]; simpl; [reflexivity|].
  rewrite key_h. destruct (keqb (key x) k); simpl; rewrite IH; reflexivity.
Qed.

Lemma groupby_map (l : list A) :
  Pd.groupby key keqb kleb (map h l)
  = map (fun kg => (fst kg, map h (snd kg))) (Pd.groupby key keqb kleb l).
Proof.
  unfold Pd.groupby. rewrite unique_keys_map, map_map. cbn [fst snd].
  apply map_ext. intro k. rewrite group_rows_map. reflexivity.
Qed.
End GroupByMap.

Lemma by_entity_read_columns (df : list sales_row) :
  by_entity (map read_columns df)
  = map (fun kg => (fst kg, map read_columns (snd kg))) (by_entity df).
Proof. unfold by_entity. apply groupby_map. reflexivity. Qed.

Lemma sales_read_columns (g : list sales_row) :
  map sales (map read_columns g) = map sales g.
Proof. rewrite map_map. reflexivity. Qed.

Lemma revenue_read_columns (g : list sales_row) :
  map revenue (map read_columns g) = map revenue g.
Proof. rewrite map_map. reflexivity. Qed.

Lemma revenue_column_read_columns (df : list sales_row) :
  revenue_contribution_column (map read_columns df) = revenue_contribution_column df.
Proof.
  unfold revenue_contribution_column. rewrite by_entity_read_columns, map_map.
  apply map_ext. intro kg. cbn [fst snd]. rewrite revenue_read_columns. reflexivity.
Qed.

Lemma demand_cv_read_columns (Qsqrt : Q -> Q) (df : list sales_row) :
  demand_cv_column Qsqrt (map read_columns df) = demand_cv_column Qsqrt df.
Proof.
  unfold demand_cv_column. rewrite by_entity_read_columns, map_map.
  f_equal. apply map_ext. intro kg. cbn [fst snd].
  rewrite sales_read_columns. reflexivity.
Qed.

Lemma seasonality_read_columns (Qsqrt : Q -> Q) (df : list sales_row) :
  _calculate_seasonality_strength Qsqrt (map read_columns df)
  = _calculate_seasonality_strength Qsqrt df.
Proof.
  unfold _calculate_seasonality_strength.
  rewrite by_entity_read_columns.
  rewrite (groupby_map read_columns (fun r => (entity r, month (date r))))
    by reflexivity.
  rewrite !map_map. cbn [fst snd].
  rewrite (map_ext (fun x : key3 * list sales_row =>
                      (fst x, Pd.mean (map sales (map read_columns (snd x)))))
                   (fun kg => (fst kg, Pd.mean (map sales (snd kg)))))
    by (intro kg; rewrite sales_read_columns; reflexivity).
  rewrite (map_ext (fun x : key2 * list sales_row =>
                      (fst x, Pd.mean (map sales (map read_columns (snd x)))))
                   (fun kg => (fst kg, Pd.mean (map sales (snd kg)))))
    by (intro kg; rewrite sales_read_columns; reflexivity).
  reflexivity.
Qed.

Lemma slopes_read_columns (df : list sales_row) :
  normalised_slopes (map read_columns df) = normalised_slopes df.
Proof.
  assert (E : map (fun kg => (fst kg, calculate_slope (snd kg)))
                  (by_entity (map read_columns df))
              = map (fun kg => (fst kg, calculate_slope (snd kg))) (by_entity df)).
  { rewrite by_entity_read_columns, map_map. apply map_ext. intro kg.
    cbn [fst snd]. unfold calculate_slope.
    rewrite length_map, sales_read_columns. reflexivity. }
  unfold normalised_slopes. cbv zeta. rewrite E. reflexivity.
Qed.

Lemma trend_slope_read_columns (df : list sales_row) :
  _calculate_trend_slope (map read_columns df) = _calculate_trend_slope df.
Proof.
  destruct df as [|r l]; [reflexivity|].
  change (map read_columns (r :: l)) with (read_columns r :: map read_columns l).
  unfold _calculate_trend_slope.
  change (read_columns r :: map read_columns l) with (map read_columns (r :: l)).
  rewrite slopes_read_columns. reflexivity.
Qed.

(** What [prepare_features] answers, on every table. *)
Lemma prepare_features_outcome
    (Qsqrt : Q -> Q) (g : RandomState) (df : list sales_row) :
  prepare_features Qsqrt g df
  = match df with
    | [] => Raise UFuncTypeError
    | _ :: _ => Raise AttributeError
    end.
Proof.
  unfold prepare_features. destruct df as [|r l]; [reflexivity|].
  rewrite trend_slope_returns by discriminate.
  unfold bind. rewrite stockout_frequency_raises. reflexivity.
Qed.

(** C2, as the code has it.  [prepare_features] has no supplier
    reliability among its inputs: it reads the columns [item_id],
    [store_id], [revenue], [sales] and [date] only, so two tables that
    agree on these give the same outcome, the same index and the same
    revenue, variability, seasonality and trend series, whatever else they
    carry. *)
Theorem supplier_reliability_not_an_input
    (Qsqrt : Q -> Q) (g : RandomState) (df df' : list sales_row) :
  map read_columns df = map read_columns df' ->
  prepare_features Qsqrt g df = prepare_features Qsqrt g df'
  /\ features_index df = features_index df'
  /\ revenue_contribution_column df = revenue_contribution_column df'
  /\ demand_cv_column Qsqrt df = demand_cv_column Qsqrt df'
  /\ _calculate_seasonality_strength Qsqrt df
     = _calculate_seasonality_strength Qsqrt df'
  /\ _calculate_trend_slope df = _calculate_trend_slope df'.
Proof.
  intro Hsame.
  assert (Hrev : revenue_contribution_column df = revenue_contribution_column df').
  { rewrite <- (revenue_column_read_columns df), Hsame.
    apply revenue_column_read_columns. }
  split; [|split; [|split; [|split; [|split]]]].
  - rewrite !prepare_features_outcome.
    destruct df, df'; try reflexivity; discriminate.
  - unfold features_index. rewrite Hrev. reflexivity.
  - exact Hrev.
  - rewrite <- (demand_cv_read_columns Qsqrt df), Hsame.
    apply demand_cv_read_columns.
  - rewrite <- (seasonality_read_columns Qsqrt df), Hsame.
    apply seasonality_read_columns.
  - rewrite <- (trend_slope_read_columns df), Hsame.
    apply trend_slope_read_columns.
Qed.

(** C9, on the code.  On a table with at least one row [prepare_features]
    returns no feature matrix: the stock-out step raises [AttributeError]
    before the random column and the cleaning are reached. *)
Theorem prepare_features_raises
    (Qsqrt : Q -> Q) (g : RandomState) (df : list sales_row) :
  df <> [] ->
  prepare_features Qsqrt g df = Raise AttributeError.
Proof.
  intro Hne. rewrite prepare_features_outcome.
  destruct df; [congruence|reflexivity].
Qed.


End FeatureProofs.

(** * Properties of [InventorySegmentation]: the model object *)

Module SegmenterProofs.
Import InventorySegmentation.
Import FeatureProofs.

Lemma predict_unfitted (self : segmenter) (features : list feature_row) :
  scaler self = StandardScaler_new -> predict self features = Raise NotFittedError.
Proof.
  intro H. unfold predict, StandardScaler_transform. rewrite H. reflexivity.
Qed.

(** C7.  On the object [__init__] builds, [predict] raises
    [NotFittedError] for every feature matrix: the scaler's
    [check_is_fitted] fails before anything is computed, nothing is fitted
    on the way and no assignment is returned. *)
Theorem predict_before_fit
    (n_clusters : nat) (random_state : Z) (features : list feature_row) :
  predict (__init__ n_clusters random_state) features = Raise NotFittedError.
Proof.
  apply predict_unfitted.
  unfold __init__. reflexivity.
Qed.

Lemma check_array_ok (allow_nan : bool) (X Y : matrix) :
  check_array allow_nan X = Ok Y -> Y = X.
Proof.
  unfold check_array. destruct X; [discriminate|].
  destruct (forallb _ _); [|discriminate]. intro H; inversion H; reflexivity.
Qed.

Lemma standardize_length (p : StandardScaler_params) (X : matrix) :
  length (standardize p X) = length X.
Proof. unfold standardize. apply length_map. Qed.

Section AfterFit.
Variable Qsqrt : Q -> Q.
Variable kmeans_centers : Z -> nat -> nat -> nat -> matrix -> matrix.
Variable silhouette_score : matrix -> list nat -> result float64.
Variable davies_bouldin_score : matrix -> list nat -> result float64.

(** X13.  Once [fit] has returned without an exception, [predict] on the
    same features answers with one cluster id per entity. *)
Lemma fit_then_predict (self self' : segmenter) (features : list feature_row) :
  fit Qsqrt kmeans_centers silhouette_score davies_bouldin_score self features
  = (self', Ok tt) ->
  exists clusters,
    predict self' features = Ok clusters
    /\ length clusters = length features.
Proof.
  unfold fit, StandardScaler_fit, KMeans_fit.
  destruct (check_array true (to_matrix features)) as [X|e] eqn:EX;
    [|simpl; intro H; inversion H].
  pose proof (check_array_ok _ _ EX) as ->.
  cbn [bind].
  set (p := {| mean_ := _; scale_ := _ |}).
  destruct (check_array false (standardize p (to_matrix features))) as [Xs|e] eqn:EXs;
    [|simpl; intro H; inversion H].
  pose proof (check_array_ok _ _ EXs) as ->.
  destruct (_ <? _)%nat; [intro H; inversion H|].
  intro H. inversion H as [[Hself Hscores]]. clear H Hscores.
  unfold predict, StandardScaler_transform. cbn [scaler kmeans].
  rewrite EX. cbn [bind KMeans_predict]. rewrite EXs. cbn [bind].
  eexists. split; [reflexivity|].
  rewrite length_map, standardize_length. unfold to_matrix. apply length_map.
Qed.

End AfterFit.

(** ** Business labels *)

Lemma in_cluster_stats (cluster_df : list (feature_row * nat)) (c : nat) :
  (exists m, In (c, m) (cluster_stats_of cluster_df)) <-> In c (map snd cluster_df).
Proof.
  unfold cluster_stats_of. split.
  - intros [m Hin]. apply in_map_iff in Hin. destruct Hin as [[c' g] [E Hin]].
    simpl in E. inversion E; subst c'.
    apply in_groupby in Hin; [|exact Nat.eqb_eq].
    destruct Hin as [_ [rc [Hrc Hc]]]. apply in_map_iff. exists rc. auto.
  - intro Hin. apply in_map_iff in Hin. destruct Hin as [rc [Hc Hrc]].
    eexists. apply in_map_iff.
    exists (c, Pd.group_rows (fun rc : feature_row * nat => snd rc) Nat.eqb c cluster_df).
    split; [reflexivity|].
    unfold Pd.groupby.
    apply (in_map (fun k => (k, Pd.group_rows _ Nat.eqb k cluster_df))).
    apply in_unique_keys; [exact Nat.eqb_eq|]. exists rc. auto.
Qed.

(** The mean table has a row for exactly the cluster ids that occur. *)
Lemma cluster_stats_lookup_none (cluster_df : list (feature_row * nat)) (c : nat) :
  Pd.lookup Nat.eqb c (cluster_stats_of cluster_df) = None
  <-> ~ In c (map snd cluster_df).
Proof.
  split.
  - intros Hnone Hin. apply in_cluster_stats in Hin. destruct Hin as [m Hm].
    revert Hm. apply lookup_none with (keqb := Nat.eqb); [exact Nat.eqb_eq|exact Hnone].
  - intro Hnot.
    destruct (Pd.lookup Nat.eqb c (cluster_stats_of cluster_df)) as [m|] eqn:E;
      [|reflexivity].
    apply lookup_some in E; [|exact Nat.eqb_eq].
    exfalso. apply Hnot. apply in_cluster_stats. exists m. exact E.
Qed.

Lemma label_of_missing (cluster_stats : list (nat * cluster_means)) (c : nat) :
  Pd.lookup Nat.eqb c cluster_stats = None ->
  label_of cluster_stats c = Raise (KeyError (Z.of_nat c)).
Proof. intro H. unfold label_of. rewrite H. reflexivity. Qed.

Lemma label_of_present (cluster_stats : list (nat * cluster_means)) (c : nat) :
  Pd.lookup Nat.eqb c cluster_stats <> None ->
  exists lab, label_of cluster_stats c = Ok lab.
Proof.
  intro H. unfold label_of.
  destruct (Pd.lookup Nat.eqb c cluster_stats); [|congruence].
  eexists. reflexivity.
Qed.

(** The loop stops at the first id of its range that has no row. *)
Lemma label_clusters_raises (cluster_stats : list (nat * cluster_means)) (ids : list nat) :
  (exists c, In c ids /\ Pd.lookup Nat.eqb c cluster_stats = None) ->
  exists c' before after,
    label_clusters cluster_stats ids = Raise (KeyError (Z.of_nat c'))
    /\ ids = before ++ c' :: after
    /\ Pd.lookup Nat.eqb c' cluster_stats = None
    /\ (forall x, In x before -> Pd.lookup Nat.eqb x cluster_stats <> None).
Proof.
  induction ids as [|c0 rest IH]; intros [c [Hin Hnone]]; [destruct Hin|].
  simpl.
  destruct (Pd.lookup Nat.eqb c0 cluster_stats) as [m|] eqn:E0.
  - destruct (label_of_present cluster_stats c0) as [lab Hlab]; [congruence|].
    rewrite Hlab. cbn [bind].
    destruct Hin as [->|Hin]; [congruence|].
    destruct IH as [c' [before [after [Hr [Hids [Hn' Hbefore]]]]]]; [exists c; auto|].
    exists c', (c0 :: before), after. rewrite Hr, Hids. simpl.
    repeat split; auto.
    intros x [<-|Hx]; [congruence|apply Hbefore; exact Hx].
  - exists c0, [], rest. rewrite (label_of_missing _ _ E0). simpl.
    repeat split; auto.
Qed.

(** Where an element sits in [range]. *)
Lemma seq_split (start len c : nat) (before after : list nat) :
  seq start len = before ++ c :: after ->
  c = (start + length before)%nat /\ before = seq start (length before).
Proof.
  revert start len. induction before as [|b before IH]; intros start len H.
  - destruct len as [|len]; simpl in H; [discriminate|].
    inversion H. simpl. split; [lia|reflexivity].
  - destruct len as [|len]; simpl in H; [discriminate|].
    inversion H as [[Hb Hrest]]. apply IH in Hrest. destruct Hrest as [Hc Hbefore].
    simpl. split; [lia|]. f_equal. exact Hbefore.
Qed.

Lemma label_clusters_ok (cluster_stats : list (nat * cluster_means)) (ids : list nat) :
  (forall c, In c ids -> Pd.lookup Nat.eqb c cluster_stats <> None) ->
  exists labels,
    label_clusters cluster_stats ids = Ok labels
    /\ map fst labels = ids
    /\ (forall c lab, In (c, lab) labels -> label_of cluster_stats c = Ok lab).
Proof.
  induction ids as [|c0 rest IH]; intro Hall.
  - exists []. simpl. repeat split; auto. intros ? ? [].
  - destruct (label_of_present cluster_stats c0) as [lab Hlab];
      [apply Hall; simpl; auto|].
    destruct IH as [labels [Hl [Hf Hin]]]; [intros c Hc; apply Hall; simpl; auto|].
    exists ((c0, lab) :: labels). simpl. rewrite Hlab. cbn [bind]. rewrite Hl.
    cbn [bind]. repeat split.
    + simpl. congruence.
    + intros c lab' [E|H]; [inversion E; subst; exact Hlab|apply Hin; exact H].
Qed.

(** C10.  When the cluster array has one entry per entity and some id of
    [range(n_clusters)] occurs nowhere in it, [assign_business_labels]
    returns no labels: it raises [KeyError], and the key is the least id
    of the range that no entity is assigned to. *)
Theorem assign_business_labels_empty_cluster
    (self : segmenter) (features : list feature_row) (clusters : list nat) (c : nat) :
  length clusters = length features ->
  (c < n_clusters self)%nat ->
  ~ In c clusters ->
  exists c',
    assign_business_labels self features clusters = Raise (KeyError (Z.of_nat c'))
    /\ (c' <= c)%nat
    /\ ~ In c' clusters
    /\ (forall x, (x < c')%nat -> In x clusters).
Proof.
  intros Hlen Hc Hnot. unfold assign_business_labels.
  rewrite Hlen, Nat.eqb_refl. cbn [negb].
  set (cluster_stats := cluster_stats_of (combine features clusters)).
  assert (Hrow : forall x, Pd.lookup Nat.eqb x cluster_stats = None <-> ~ In x clusters).
  { intro x. unfold cluster_stats. rewrite cluster_stats_lookup_none.
    rewrite combine_snd by exact Hlen. reflexivity. }
  destruct (label_clusters_raises cluster_stats (seq 0 (n_clusters self)))
    as [c' [before [after [Hr [Hids [Hnone Hbefore]]]]]].
  - exists c. split; [apply in_seq; lia|]. apply Hrow. exact Hnot.
  - apply seq_split in Hids. destruct Hids as [Hc' Hseq]. simpl in Hc'.
    assert (Hfilled : forall x, (x < c')%nat -> In x clusters).
    { intros x Hx.
      destruct (in_dec Nat.eq_dec x clusters) as [Hin|Hout]; [exact Hin|].
      exfalso. apply (Hbefore x).
      - rewrite Hseq. apply in_seq. lia.
      - apply Hrow. exact Hout. }
    exists c'. rewrite Hr. cbn [bind]. split; [reflexivity|].
    assert (Hmissing : ~ In c' clusters) by (apply Hrow; exact Hnone).
    split; [|split; assumption].
    destruct (Nat.le_gt_cases c' c) as [Hle|Hgt]; [exact Hle|].
    exfalso. apply Hnot, Hfilled. exact Hgt.
Qed.

(** C5, as the code has it.  For a cluster that has a row in the mean
    table the label is "{value}-{stability}"; the value tier is Premium
    exactly when the mean revenue exceeds the 67th percentile of the
    cluster means, Mid-Tier exactly when it does not but exceeds the 33rd
    percentile, and Budget exactly when it exceeds neither, so a mean equal
    to the 33rd percentile is Budget; the stability tier is Stable when the
    mean demand CV is below 0.5, Moderate when it is not but is below 1.0,
    and Volatile otherwise. *)
Theorem business_label_tiers
    (cluster_stats : list (nat * cluster_means)) (c : nat) (stats : cluster_means) :
  Pd.lookup Nat.eqb c cluster_stats = Some stats ->
  let revenues := map (fun cs => cm_revenue_contribution (snd cs)) cluster_stats in
  let above67 := fgt (cm_revenue_contribution stats) (quantile 0.67 revenues) in
  let above33 := fgt (cm_revenue_contribution stats) (quantile 0.33 revenues) in
  let below05 := flt (cm_demand_cv stats) (Fin 0.5) in
  let below10 := flt (cm_demand_cv stats) (Fin 1.0) in
  exists value stability : string,
    label_of cluster_stats c = Ok (value ++ "-" ++ stability)%string
    /\ (value = "Premium"%string <-> above67 = true)
    /\ (value = "Mid-Tier"%string <-> above67 = false /\ above33 = true)
    /\ (value = "Budget"%string <-> above67 = false /\ above33 = false)
    /\ (stability = "Stable"%string <-> below05 = true)
    /\ (stability = "Moderate"%string <-> below05 = false /\ below10 = true)
    /\ (stability = "Volatile"%string <-> below05 = false /\ below10 = false).
Proof.
  intro Hrow. cbv zeta. unfold label_of. rewrite Hrow.
  eexists. eexists. split; [reflexivity|].
  unfold value_label, stability_label.
  destruct (fgt _ (quantile 0.67 _)), (fgt _ (quantile 0.33 _)),
    (flt _ (Fin 0.5)), (flt _ (Fin 1.0));
    repeat split; intros; try discriminate; try reflexivity;
    match goal with
    | H : _ /\ _ |- _ => destruct H; discriminate
    end.
Qed.

Lemma lookup_in_dict (labels : list (nat * string)) (c : nat) :
  In c (map fst labels) -> exists lab, Pd.lookup Nat.eqb c labels = Some lab.
Proof.
  intro Hin. destruct (Pd.lookup Nat.eqb c labels) as [lab|] eqn:E; [eauto|].
  apply in_map_iff in Hin. destruct Hin as [[c' lab] [Hc Hin]]. simpl in Hc. subst c'.
  exfalso. revert Hin.
  apply lookup_none with (keqb := Nat.eqb); [exact Nat.eqb_eq|exact E].
Qed.

(** X15.  When the cluster array has one entry per entity and every id
    of [range(n_clusters)] has an entity, the method returns one label per
    entity, the one the loop computed for the entity's cluster. *)
Lemma assign_business_labels_ok
    (self : segmenter) (features : list feature_row) (clusters : list nat) :
  length clusters = length features ->
  (forall c, (c < n_clusters self)%nat -> In c clusters) ->
  exists out,
    assign_business_labels self features clusters = Ok out
    /\ length out = length clusters
    /\ (forall i c,
          nth_error clusters i = Some c -> (c < n_clusters self)%nat ->
          exists lab,
            nth_error out i = Some (Some lab)
            /\ label_of (cluster_stats_of (combine features clusters)) c = Ok lab).
Proof.
  intros Hlen Hall. unfold assign_business_labels.
  rewrite Hlen, Nat.eqb_refl. cbn [negb].
  destruct (label_clusters_ok (cluster_stats_of (combine features clusters))
              (seq 0 (n_clusters self))) as [labels [Hl [Hf Hin]]].
  - intros c Hc Hnone. apply in_seq in Hc.
    apply cluster_stats_lookup_none in Hnone.
    rewrite combine_snd in Hnone by exact Hlen. apply Hnone, Hall. lia.
  - rewrite Hl. cbn [bind]. eexists. split; [reflexivity|]. split.
    + rewrite length_map. exact Hlen.
    + intros i c Hi Hc.
      destruct (lookup_in_dict labels c) as [lab Hlab].
      { rewrite Hf. apply in_seq. lia. }
      exists lab. split.
      * rewrite nth_error_map, Hi. simpl. rewrite Hlab. reflexivity.
      * apply Hin. apply lookup_some with (keqb := Nat.eqb); [exact Nat.eqb_eq|exact Hlab].
Qed.


End SegmenterProofs.

(** * The statements on concrete tables *)

Module Evaluation.
Import Samples.

Lemma get_category_table_witness :
  (1.0 < 1.32 /\ 0.49 <= 0.8)
  /\ DemandClassifier.get_category (Fin 1.0) (Fin 0.8) = "Erratic"%string.
Proof.
  assert (Ha : 1.0 < 1.32) by reflexivity.
  assert (Hc : 0.49 <= 0.8) by (vm_compute; discriminate).
  split; [split; assumption|].
  exact (proj1 (proj2 (DemandClassifierProofs.get_category_table 1.0 0.8)) Ha Hc).
Defined.



(** C6, the claim on the code: the table without observations is answered
    with the empty statistics table, not with an error, and so is an entity
    whose one row has no date, with a row of its own and 0 observations. *)
Lemma calculate_features_empty_table :
  DemandClassifier.calculate_features Qsqrt_floor [] = []
  /\ exists r,
       DemandClassifier.calculate_features Qsqrt_floor sample_all_undated = [r]
       /\ DemandClassifier.num_observations r = 0%nat
       /\ DemandClassifier.non_zero_obs r = 1%nat
       /\ DemandClassifier.ADI r = Fin 0.
Proof.
  split; [reflexivity|]. eexists. split; [vm_compute; reflexivity|].
  repeat split.
Qed.

Lemma calculate_features_rows_witness :
  In (DemandClassifier.mkSales (Some (jan 1)) "S1" "I0" (Fin 0)) sample_sales
  /\ exists r,
       In r (DemandClassifier.calculate_features Qsqrt_floor sample_sales)
       /\ (DemandClassifier.st_store_id r, DemandClassifier.st_item_id r)
          = ("S1", "I0")%string.
Proof.
  assert (Hin : In (DemandClassifier.mkSales (Some (jan 1)) "S1" "I0" (Fin 0))
                   sample_sales).
  { right. right. right. left. reflexivity. }
  split; [exact Hin|].
  exact (proj1 (proj2 (proj2 (DemandClassifierProofs.calculate_features_rows
                                Qsqrt_floor sample_sales)))
               _ Hin).
Defined.

Import InventorySegmentation.

Lemma trend_slope_short_series_witness :
  In sample_row_B sample_history
  /\ (length (Pd.group_rows entity key2_eqb (entity sample_row_B) sample_history) < 10)%nat
  /\ calculate_slope (Pd.group_rows entity key2_eqb (entity sample_row_B) sample_history)
     = Fin 0
  /\ exists slopes,
       _calculate_trend_slope sample_history = Ok slopes
       /\ loc_or_nan slopes (entity sample_row_B) = Fin 0.
Proof.
  assert (Hin : In sample_row_B sample_history).
  { unfold sample_history. apply in_or_app. right. left. reflexivity. }
  assert (Hlen : (length (Pd.group_rows entity key2_eqb (entity sample_row_B)
                                        sample_history) < 10)%nat).
  { vm_compute. lia. }
  destruct (FeatureProofs.trend_slope_short_series sample_history sample_row_B Hin Hlen)
    as [Hraw [slopes [Hok [_ [Hloc _]]]]].
  split; [exact Hin|]. split; [exact Hlen|]. split; [exact Hraw|].
  exists slopes. split; assumption.
Defined.

(** The long entity of the same table keeps a slope that is not 0. *)
Example trend_slope_long_series :
  _calculate_trend_slope sample_history
  = Ok [ (("A", "CA")%string, Fin (110000000000 # 110000000001));
         (("B", "CA")%string, Fin 0);
         (("C", "TX")%string, Fin 0) ].
Proof. vm_compute. reflexivity. Qed.

(** C2, the claim on the code: the table supplies 0.5 for its one
    entity, and [prepare_features] returns no feature matrix whose
    supplier reliability is the supplied one; the table that supplies 0.9
    instead is answered in the same way. *)
Lemma supplier_reliability_not_returned :
  supplied_supplier_reliability sample_supplied = [Fin 0.5]
  /\ supplied_supplier_reliability sample_supplied' = [Fin 0.9]
  /\ prepare_features Qsqrt_floor sample_generator sample_supplied
     = prepare_features Qsqrt_floor sample_generator sample_supplied'
  /\ ~ (exists features g',
          prepare_features Qsqrt_floor sample_generator sample_supplied
          = Ok (features, g')
          /\ map supplier_reliability features
             = supplied_supplier_reliability sample_supplied).
Proof.
  split; [reflexivity|]. split; [reflexivity|]. split; [reflexivity|].
  intros [features [g' [H _]]]. vm_compute in H. discriminate.
Qed.

Lemma supplier_reliability_not_an_input_witness :
  map read_columns sample_supplied = map read_columns sample_supplied'
  /\ prepare_features Qsqrt_floor sample_generator sample_supplied
     = prepare_features Qsqrt_floor sample_generator sample_supplied'
  /\ demand_cv_column Qsqrt_floor sample_supplied
     = demand_cv_column Qsqrt_floor sample_supplied'.
Proof.
  assert (Hsame : map read_columns sample_supplied = map read_columns sample_supplied')
    by reflexivity.
  destruct (FeatureProofs.supplier_reliability_not_an_input
              Qsqrt_floor sample_generator sample_supplied sample_supplied' Hsame)
    as [Hout [_ [_ [Hcv _]]]].
  split; [exact Hsame|]. split; assumption.
Defined.

Lemma prepare_features_raises_witness :
  sample_history <> []
  /\ prepare_features Qsqrt_floor sample_generator sample_history = Raise AttributeError.
Proof.
  assert (Hne : sample_history <> []) by discriminate.
  split; [exact Hne|].
  exact (FeatureProofs.prepare_features_raises Qsqrt_floor sample_generator Hne).
Defined.

(** The two runs of path B on the sample table, the second from the
    generator state 3 draws on. *)
Example two_runs_of_the_sample :
  run_pipeline Qsqrt_floor sample_centers sample_score sample_score
               8 42 sample_generator sample_history
  = Raise AttributeError
  /\ run_pipeline Qsqrt_floor sample_centers sample_score sample_score
                  8 42 {| stream := stream sample_generator; position := 3 |}
                  sample_history
     = Raise AttributeError.
Proof. split; vm_compute; reflexivity. Qed.

Lemma assign_business_labels_empty_cluster_witness :
  (length [0; 2]%nat = length sample_equal_features
   /\ (1 < n_clusters (__init__ 3 42))%nat
   /\ ~ In 1%nat [0; 2]%nat)
  /\ exists c',
       assign_business_labels (__init__ 3 42) sample_equal_features [0; 2]%nat
       = Raise (KeyError (Z.of_nat c'))
       /\ (c' <= 1)%nat
       /\ ~ In c' [0; 2]%nat
       /\ (forall x, (x < c')%nat -> In x [0; 2]%nat).
Proof.
  assert (Hlen : length [0; 2]%nat = length sample_equal_features) by reflexivity.
  assert (Hc : (1 < n_clusters (__init__ 3 42))%nat) by (simpl; lia).
  assert (Hnot : ~ In 1%nat [0; 2]%nat).
  { simpl. intros [H|[H|H]]; try discriminate; exact H. }
  split; [repeat split; assumption|].
  exact (SegmenterProofs.assign_business_labels_empty_cluster
           (__init__ 3 42) sample_equal_features [0; 2]%nat Hlen Hc Hnot).
Defined.

Example empty_cluster_run :
  assign_business_labels (__init__ 3 42) sample_equal_features [0; 2]%nat
  = Raise (KeyError 1).
Proof. vm_compute. reflexivity. Qed.

(** C5, the claim on the code: two clusters with the same mean revenue 5.
    The 33rd percentile of the cluster means is 5, neither mean is below
    it, and both clusters are labelled Budget. *)
Lemma budget_at_the_33rd_percentile :
  map (fun cs => cm_revenue_contribution (snd cs))
      (cluster_stats_of (combine sample_equal_features [0; 1]%nat))
  = [Fin 5; Fin 5]
  /\ quantile 0.33 [Fin 5; Fin 5] = Fin 5
  /\ flt (Fin 5) (quantile 0.33 [Fin 5; Fin 5]) = false
  /\ assign_business_labels (__init__ 2 42) sample_equal_features [0; 1]%nat
     = Ok [Some "Budget-Stable"%string; Some "Budget-Moderate"%string].
Proof. repeat split; vm_compute; reflexivity. Qed.

Lemma business_label_tiers_witness :
  Pd.lookup Nat.eqb 2%nat (cluster_stats_of (combine sample_features [0; 2; 1]%nat))
  = Some (mkMeans (Fin 5) (Fin 0.7) (Fin 0) (Fin 0))
  /\ exists value stability : string,
       label_of (cluster_stats_of (combine sample_features [0; 2; 1]%nat)) 2
       = Ok (value ++ "-" ++ stability)%string
       /\ value = "Mid-Tier"%string
       /\ stability = "Moderate"%string.
Proof.
  assert (Hrow : Pd.lookup Nat.eqb 2%nat
                   (cluster_stats_of (combine sample_features [0; 2; 1]%nat))
                 = Some (mkMeans (Fin 5) (Fin 0.7) (Fin 0) (Fin 0))).
  { vm_compute. reflexivity. }
  split; [exact Hrow|].
  pose proof (SegmenterProofs.business_label_tiers _ _ Hrow) as H. cbv zeta in H.
  destruct H as [value [stability [Hlab [_ [Hmid [_ [_ [Hmod _]]]]]]]].
  exists value, stability. split; [exact Hlab|]. split.
  - apply Hmid. split; vm_compute; reflexivity.
  - apply Hmod. split; vm_compute; reflexivity.
Defined.

Example sample_labels :
  assign_business_labels (__init__ 3 42) sample_features [0; 2; 1]%nat
  = Ok [Some "Budget-Stable"%string; Some "Mid-Tier-Moderate"%string;
        Some "Premium-Volatile"%string].
Proof. vm_compute. reflexivity. Qed.

End Evaluation.

(** * Further properties of [DemandClassifier] *)

Module DemandClassifierEdges.
Import DemandClassifier.
Import DemandClassifierProofs.

Lemma of_nat_0 : of_nat 0 = Fin 0.
Proof. reflexivity. Qed.

Lemma of_nat_pos_div_0 (n : nat) :
  (1 <= n)%nat -> fdiv (of_nat n) (Fin 0) = PInf.
Proof.
  intro Hn. unfold of_nat, fin, fdiv.
  change (Qeq_bool 0 0) with true. cbv iota.
  unfold inf_of_sign.
  assert (H : (Qred (inject_Z (Z.of_nat n)) ?= 0) = Gt).
  { rewrite (Qred_correct (inject_Z (Z.of_nat n))).
    apply Qgt_alt. change 0 with (inject_Z 0). rewrite <- Zlt_Qlt. lia. }
  rewrite H. reflexivity.
Qed.

Lemma of_nat_div_self (n : nat) :
  (1 <= n)%nat -> fdiv (of_nat n) (of_nat n) = Fin 1.
Proof.
  intro Hn. rewrite of_nat_div by exact Hn.
  change (Fin 1) with (Fin (Qred 1)). unfold fin.
  apply (f_equal Fin), Qred_complete.
  apply Qmult_inv_r. change 0 with (inject_Z 0).
  intro H. unfold Qeq in H. simpl in H. lia.
Qed.

Lemma CV2_of_few_positive (Qsqrt : Q -> Q) (df : list sales_row) (r : stats_row) :
  In r (calculate_features Qsqrt df) ->
  (non_zero_obs r <= 1)%nat -> CV2 r = Fin 0.
Proof.
  intros Hin Hle. apply in_calculate_features in Hin.
  destruct Hin as [k [nz_stats [Hr [_ Hnz]]]]. subst r nz_stats.
  unfold stats_of in *. cbn [non_zero_obs CV2 fst snd] in *.
  rewrite merged_std_missing by exact Hle. apply CV2_zero_of_std.
Qed.

Lemma ADI_of_row (Qsqrt : Q -> Q) (df : list sales_row) (r : stats_row) :
  In r (calculate_features Qsqrt df) ->
  ADI r = fdiv (of_nat (num_observations r)) (of_nat (non_zero_obs r)).
Proof.
  intro Hin. apply in_calculate_features in Hin.
  destruct Hin as [k [nz_stats [Hr _]]]. subst r. reflexivity.
Qed.

Lemma in_classify_patterns (df : list stats_row) (r : stats_row) :
  In r df -> In (r, get_category (ADI r) (CV2 r)) (classify_patterns df).
Proof.
  intro Hin. unfold classify_patterns.
  apply (in_map (fun row => (row, get_category (ADI row) (CV2 row)))). exact Hin.
Qed.

(** X1.  An entity without a single positive sale is not an error: CV2
    is 0 and the entity is classified Intermittent; the division by zero
    gives ADI = +inf when at least one of its rows carries a date, and
    0/0 = NaN when none does. *)
Theorem no_positive_sale_is_intermittent
    (Qsqrt : Q -> Q) (df : list sales_row) (r : stats_row) :
  In r (calculate_features Qsqrt df) ->
  non_zero_obs r = 0%nat ->
  CV2 r = Fin 0
  /\ ((1 <= num_observations r)%nat -> ADI r = PInf)
  /\ (num_observations r = 0%nat -> ADI r = NaN)
  /\ In (r, "Intermittent"%string) (classify_patterns (calculate_features Qsqrt df)).
Proof.
  intros Hin Hz.
  assert (Hadi : ADI r = fdiv (of_nat (num_observations r)) (Fin 0)).
  { rewrite (ADI_of_row _ _ _ Hin), Hz, of_nat_0. reflexivity. }
  assert (Hcv : CV2 r = Fin 0).
  { apply (CV2_of_few_positive _ _ _ Hin). lia. }
  split; [exact Hcv|]. split; [|split].
  - intro Hpos. rewrite Hadi. apply of_nat_pos_div_0. exact Hpos.
  - intro Hnone. rewrite Hadi, Hnone. reflexivity.
  - pose proof (in_classify_patterns _ _ Hin) as H.
    rewrite Hcv in H.
    destruct (num_observations r) as [|n] eqn:En.
    + rewrite Hadi in H. exact H.
    + rewrite Hadi, of_nat_pos_div_0 in H by lia. exact H.
Qed.

(** X2.  An entity with at most one positive sale has no variability
    signal, so it is never classified Erratic or Lumpy. *)
Theorem few_positive_sales_pattern
    (Qsqrt : Q -> Q) (df : list sales_row) (r : stats_row) :
  In r (calculate_features Qsqrt df) ->
  (non_zero_obs r <= 1)%nat ->
  exists pattern,
    In (r, pattern) (classify_patterns (calculate_features Qsqrt df))
    /\ (pattern = "Smooth"%string \/ pattern = "Intermittent"%string).
Proof.
  intros Hin Hle.
  exists (get_category (ADI r) (CV2 r)). split.
  - apply in_classify_patterns. exact Hin.
  - rewrite (CV2_of_few_positive _ _ _ Hin Hle). unfold get_category.
    change (flt (Fin 0) (Fin 0.49)) with true.
    destruct (flt (ADI r) (Fin 1.32)); auto.
Qed.

(** X3.  An entity with as many positive sales as dated rows, and at
    least one, has ADI exactly 1 and is classified Smooth or Erratic, never
    Intermittent or Lumpy. *)
Theorem always_selling_pattern
    (Qsqrt : Q -> Q) (df : list sales_row) (r : stats_row) :
  In r (calculate_features Qsqrt df) ->
  non_zero_obs r = num_observations r ->
  (1 <= num_observations r)%nat ->
  ADI r = Fin 1
  /\ exists pattern,
       In (r, pattern) (classify_patterns (calculate_features Qsqrt df))
       /\ (pattern = "Smooth"%string \/ pattern = "Erratic"%string).
Proof.
  intros Hin Hall Hpos.
  assert (Hadi : ADI r = Fin 1).
  { rewrite (ADI_of_row _ _ _ Hin), Hall.
    apply of_nat_div_self. exact Hpos. }
  split; [exact Hadi|].
  exists (get_category (ADI r) (CV2 r)). split.
  - apply in_classify_patterns. exact Hin.
  - rewrite Hadi. unfold get_category.
    change (flt (Fin 1) (Fin 1.32)) with true.
    destruct (flt (CV2 r) (Fin 0.49)); auto.
Qed.

End DemandClassifierEdges.

(** * The order of the keys of a grouping *)

Lemma string_compare_refl (a : string) : String.compare a a = Eq.
Proof. apply OrderedTypeEx.String_as_OT.cmp_eq. reflexivity. Qed.

Lemma string_ltb_lt (a b : string) : String.ltb a b = true <-> OrderedTypeEx.String_as_OT.lt a b.
Proof.
  unfold String.ltb. rewrite <- OrderedTypeEx.String_as_OT.cmp_lt. unfold OrderedTypeEx.String_as_OT.cmp.
  destruct (String.compare a b); split; intro H; try reflexivity; discriminate.
Qed.

Lemma string_ltb_trans (a b c : string) :
  String.ltb a b = true -> String.ltb b c = true -> String.ltb a c = true.
Proof.
  rewrite !string_ltb_lt. apply OrderedTypeEx.String_as_OT.lt_trans.
Qed.

Lemma string_ltb_irrefl (a : string) : String.ltb a a = false.
Proof. unfold String.ltb. rewrite string_compare_refl. reflexivity. Qed.

Lemma string_leb_ltb (a b : string) :
  String.leb a b = true <-> String.ltb a b = true \/ a = b.
Proof.
  unfold String.leb, String.ltb.
  destruct (String.compare a b) eqn:E.
  - apply String.compare_eq_iff in E. intuition.
  - intuition.
  - split; [discriminate|]. intros [H|H]; [discriminate|].
    subst. rewrite string_compare_refl in E. discriminate.
Qed.

Lemma string_trichotomy (a b : string) :
  String.ltb a b = true \/ a = b \/ String.ltb b a = true.
Proof.
  unfold String.ltb. rewrite (String.compare_antisym b a).
  destruct (String.compare a b) eqn:E; simpl; auto.
  apply String.compare_eq_iff in E. auto.
Qed.

Lemma key2_leb_spec (a b : key2) :
  key2_leb a b = true <->
  String.ltb (fst a) (fst b) = true
  \/ (fst a = fst b /\ (String.ltb (snd a) (snd b) = true \/ snd a = snd b)).
Proof.
  unfold key2_leb. rewrite orb_true_iff, andb_true_iff, String.eqb_eq, string_leb_ltb.
  reflexivity.
Qed.

Lemma key2_leb_total (a b : key2) : key2_leb a b = true \/ key2_leb b a = true.
Proof.
  rewrite !key2_leb_spec.
  destruct (string_trichotomy (fst a) (fst b)) as [H|[H|H]]; auto.
  destruct (string_trichotomy (snd a) (snd b)) as [H'|[H'|H']]; auto 6.
Qed.

Lemma key2_leb_antisym (a b : key2) :
  key2_leb a b = true -> key2_leb b a = true -> a = b.
Proof.
  rewrite !key2_leb_spec. destruct a as [a1 a2], b as [b1 b2]. simpl.
  intros [H1|[E1 H1]] [H2|[E2 H2]]; subst.
  - pose proof (string_ltb_trans _ _ _ H1 H2) as H.
    rewrite string_ltb_irrefl in H. discriminate.
  - rewrite string_ltb_irrefl in H1. discriminate.
  - rewrite string_ltb_irrefl in H2. discriminate.
  - destruct H1 as [H1|H1], H2 as [H2|H2]; subst; try reflexivity.
    pose proof (string_ltb_trans _ _ _ H1 H2) as H.
    rewrite string_ltb_irrefl in H. discriminate.
Qed.

Lemma key2_leb_trans (a b c : key2) :
  key2_leb a b = true -> key2_leb b c = true -> key2_leb a c = true.
Proof.
  rewrite !key2_leb_spec. destruct a as [a1 a2], b as [b1 b2], c as [c1 c2]. simpl.
  intros [H1|[E1 H1]] [H2|[E2 H2]]; subst.
  - left. eapply string_ltb_trans; eassumption.
  - left. exact H1.
  - left. exact H2.
  - right. split; [reflexivity|].
    destruct H1 as [H1|H1], H2 as [H2|H2]; subst; auto.
    left. eapply string_ltb_trans; eassumption.
Qed.

Section UniqueKeys.
Variables A K : Type.
Variable key : A -> K.
Variables keqb kleb : K -> K -> bool.
Hypothesis keqb_eq : forall a b, keqb a b = true <-> a = b.
Hypothesis kleb_total : forall a b, kleb a b = true \/ kleb b a = true.
Hypothesis kleb_antisym : forall a b, kleb a b = true -> kleb b a = true -> a = b.
Hypothesis kleb_trans : forall a b c, kleb a b = true -> kleb b c = true -> kleb a c = true.

Let klt (a b : K) : Prop := kleb a b = true /\ a <> b.

Lemma insert_key_sorted (k : K) (ks : list K) :
  StronglySorted klt ks -> StronglySorted klt (Pd.insert_key keqb kleb k ks).
Proof.
  induction 1 as [|k' r Hr IH Hall]; simpl.
  - repeat constructor.
  - destruct (keqb k k') eqn:E; [constructor; assumption|].
    assert (Hne : k <> k').
    { intro Heq. apply keqb_eq in Heq. congruence. }
    destruct (kleb k k') eqn:L.
    + constructor; [constructor; assumption|].
      constructor; [split; assumption|].
      rewrite Forall_forall in Hall |- *. intros x Hx.
      destruct (Hall x Hx) as [Hle Hnx]. split.
      * eapply kleb_trans; eassumption.
      * intro Heq. subst x. apply Hne. apply kleb_antisym; assumption.
    + assert (L' : kleb k' k = true).
      { destruct (kleb_total k k') as [H|H]; [congruence|exact H]. }
      constructor; [exact IH|].
      rewrite Forall_forall in Hall |- *. intros x Hx.
      apply in_insert_key in Hx; [|exact keqb_eq]. destruct Hx as [->|Hx].
      * split; [exact L'|]. intro Heq. apply Hne. symmetry. exact Heq.
      * apply Hall. exact Hx.
Qed.

Lemma unique_keys_sorted (l : list A) :
  StronglySorted klt (Pd.unique_keys key keqb kleb l).
Proof.
  induction l as [|a r IH]; simpl; [constructor|].
  apply insert_key_sorted. exact IH.
Qed.

Lemma unique_keys_NoDup (l : list A) : NoDup (Pd.unique_keys key keqb kleb l).
Proof.
  pose proof (unique_keys_sorted l) as H.
  induction H as [|k r Hr IH Hall]; constructor; [|exact IH].
  intro Hin. rewrite Forall_forall in Hall. destruct (Hall k Hin) as [_ Hne].
  apply Hne. reflexivity.
Qed.

Lemma groupby_keys (l : list A) :
  map fst (Pd.groupby key keqb kleb l) = Pd.unique_keys key keqb kleb l.
Proof.
  unfold Pd.groupby. rewrite map_map. apply map_id.
Qed.
End UniqueKeys.

(** * Further properties of [DemandClassifier]: the rows of the result *)

Module DemandClassifierRows.
Import DemandClassifier.
Import DemandClassifierProofs.

Lemma calculate_features_keys (Qsqrt : Q -> Q) (df : list sales_row) :
  map (fun r => (st_store_id r, st_item_id r)) (calculate_features Qsqrt df)
  = Pd.unique_keys entity key2_eqb key2_leb (Pd.sort_values sales_leb df).
Proof.
  unfold calculate_features. rewrite map_map.
  rewrite <- (groupby_keys entity key2_eqb key2_leb).
  apply map_ext. intros [[s i] g]. reflexivity.
Qed.

(** X4.  The statistics table has exactly one row per entity of the
    input, and its rows come in strictly ascending order of
    (store_id, item_id). *)
Theorem one_row_per_entity (Qsqrt : Q -> Q) (df : list sales_row) :
  let keys := map (fun r => (st_store_id r, st_item_id r))
                  (calculate_features Qsqrt df) in
  NoDup keys
  /\ StronglySorted key2_lt keys
  /\ (forall k, In k keys <-> exists row, In row df /\ entity row = k).
Proof.
  cbv zeta. rewrite calculate_features_keys. repeat split.
  - apply unique_keys_NoDup;
      [exact key2_eqb_eq|exact key2_leb_total|exact key2_leb_antisym|exact key2_leb_trans].
  - apply unique_keys_sorted;
      [exact key2_eqb_eq|exact key2_leb_total|exact key2_leb_antisym|exact key2_leb_trans].
  - intro Hin. apply in_unique_keys in Hin; [|exact key2_eqb_eq].
    destruct Hin as [row [Hrow Hk]]. exists row. split; [|exact Hk].
    apply (Permutation_in _ (sort_values_perm sales_leb df)). exact Hrow.
  - intros [row [Hrow Hk]]. apply in_unique_keys; [exact key2_eqb_eq|].
    exists row. split; [|exact Hk].
    apply (Permutation_in _ (Permutation_sym (sort_values_perm sales_leb df))).
    exact Hrow.
Qed.

End DemandClassifierRows.

(** * Sorting and summing *)

Section SortFacts.
Variable A : Type.
Variable leb : A -> A -> bool.
Hypothesis leb_total : forall a b, leb a b = true \/ leb b a = true.
Hypothesis leb_trans : forall a b c, leb a b = true -> leb b c = true -> leb a c = true.

Let le (a b : A) : Prop := leb a b = true.

Lemma insert_sorted_sorted (x : A) (l : list A) :
  StronglySorted le l -> StronglySorted le (Pd.insert_sorted leb x l).
Proof.
  induction 1 as [|y r Hr IH Hall]; simpl.
  - repeat constructor.
  - destruct (leb x y) eqn:E.
    + constructor; [constructor; assumption|].
      constructor; [exact E|].
      rewrite Forall_forall in Hall |- *. intros z Hz.
      eapply leb_trans; [exact E|apply Hall; exact Hz].
    + constructor; [exact IH|].
      rewrite Forall_forall in Hall |- *. intros z Hz.
      apply (Permutation_in _ (insert_sorted_perm leb x r)) in Hz.
      destruct Hz as [<-|Hz]; [|apply Hall; exact Hz].
      destruct (leb_total x y) as [H|H]; [congruence|exact H].
Qed.

Lemma sort_values_sorted (l : list A) : StronglySorted le (Pd.sort_values leb l).
Proof.
  induction l as [|x r IH]; simpl; [constructor|].
  apply insert_sorted_sorted. exact IH.
Qed.
End SortFacts.


Lemma fold_fadd_fin (qs : list Q) (init : Q) :
  exists q, fold_left fadd (map Fin qs) (Fin init) = Fin q
            /\ q == init + Pd.Qsum qs
            /\ (Qred init = init -> Qred q = q).
Proof.
  revert init. induction qs as [|x r IH]; intro init; simpl.
  - exists init. repeat split; auto. ring.
  - destruct (IH (Qred (init + x))) as [q [Hq [Hsum Hcan]]].
    exists q. split; [exact Hq|]. split.
    + rewrite Hsum, Qred_correct. ring.
    + intros _. apply Hcan. apply Qred_complete, Qred_correct.
Qed.

Lemma np_sum_fin (qs : list Q) :
  exists q, Pd.np_sum (map Fin qs) = Fin q /\ q == Pd.Qsum qs /\ Qred q = q.
Proof.
  destruct (fold_fadd_fin qs 0) as [q [Hq [Hsum Hcan]]].
  exists q. repeat split; [exact Hq|rewrite Hsum; ring|apply Hcan; reflexivity].
Qed.


Lemma list_sum_perm (l l' : list nat) : Permutation l l' -> list_sum l = list_sum l'.
Proof.
  induction 1; simpl; lia.
Qed.

Lemma StronglySorted_map (A B : Type) (R : A -> A -> Prop) (R' : B -> B -> Prop)
    (f : A -> B) (l : list A) :
  (forall a b, R a b -> R' (f a) (f b)) ->
  StronglySorted R l -> StronglySorted R' (map f l).
Proof.
  intros Hf. induction 1 as [|a r Hr IH Hall]; simpl; constructor; [exact IH|].
  rewrite Forall_forall in Hall |- *. intros b Hb.
  apply in_map_iff in Hb. destruct Hb as [a' [<- Ha']]. apply Hf, Hall, Ha'.
Qed.

(** * Properties of [save_results] *)

Module SummaryProofs.
Import DemandClassifier.
Import DemandClassifierProofs.

Lemma filter_neq_count (p x : string) (l : list string) :
  p <> x -> count_value p (filter (fun y => negb (y =? x)%string) l) = count_value p l.
Proof.
  intro Hne. unfold count_value. induction l as [|y r IH]; simpl; [reflexivity|].
  destruct (String.eqb_spec y x) as [->|Hyx]; simpl.
  - destruct (String.eqb_spec p x); [contradiction|exact IH].
  - destruct (p =? y)%string; simpl; rewrite IH; reflexivity.
Qed.

Lemma in_unique_values (x : string) (l : list string) :
  In x (unique_values l) <-> In x l.
Proof.
  induction l as [|y r IH]; simpl; [tauto|].
  rewrite filter_In, IH, negb_true_iff, String.eqb_neq.
  destruct (string_dec y x) as [->|Hne]; [tauto|]. intuition congruence.
Qed.

Lemma unique_values_NoDup (l : list string) : NoDup (unique_values l).
Proof.
  induction l as [|y r IH]; simpl; constructor.
  - rewrite filter_In, negb_true_iff, String.eqb_neq. intros [_ H]. congruence.
  - apply NoDup_filter. exact IH.
Qed.

(** Counting over a duplicate-free list of values that covers [l] counts
    every element of [l] once. *)
Lemma count_cover (ps l : list string) :
  NoDup ps -> (forall x, In x l -> In x ps) ->
  list_sum (map (fun p => count_value p l) ps) = length l.
Proof.
  intros Hnd. induction l as [|x r IH]; intro Hcov.
  - clear Hnd Hcov. unfold count_value. induction ps; simpl; auto.
  - simpl. rewrite <- IH by (intros y Hy; apply Hcov; right; exact Hy).
    assert (Hx : In x ps) by (apply Hcov; left; reflexivity).
    clear IH Hcov. induction Hnd as [|p ps Hp Hnd IH]; [destruct Hx|].
    simpl. unfold count_value at 1 3. simpl.
    destruct (String.eqb_spec p x) as [->|Hpx].
    + simpl. f_equal. f_equal.
      apply f_equal, map_ext_in. intros q Hq. unfold count_value. simpl.
      destruct (String.eqb_spec q x) as [->|_]; [contradiction|reflexivity].
    + destruct Hx as [->|Hx]; [congruence|]. rewrite (IH Hx). lia.
Qed.

Lemma value_counts_perm (l : list string) :
  Permutation (value_counts l)
              (map (fun p => (p, count_value p l)) (unique_values l)).
Proof. unfold value_counts. apply sort_values_perm. Qed.

Lemma value_counts_total (l : list string) :
  list_sum (map snd (value_counts l)) = length l.
Proof.
  rewrite (list_sum_perm (Permutation_map snd (value_counts_perm l))).
  rewrite map_map. simpl.
  apply count_cover; [apply unique_values_NoDup|].
  intros x Hx. apply in_unique_values. exact Hx.
Qed.

Lemma in_value_counts (l : list string) (p : string) (c : nat) :
  In (p, c) (value_counts l) <-> In p l /\ c = count_value p l.
Proof.
  split.
  - intro Hin. apply (Permutation_in _ (value_counts_perm l)) in Hin.
    apply in_map_iff in Hin. destruct Hin as [q [E Hq]]. inversion E; subst.
    split; [apply in_unique_values; exact Hq|reflexivity].
  - intros [Hp ->].
    apply (Permutation_in _ (Permutation_sym (value_counts_perm l))).
    apply (in_map (fun p => (p, count_value p l))). apply in_unique_values. exact Hp.
Qed.

Lemma count_value_pos (p : string) (l : list string) :
  In p l -> (1 <= count_value p l)%nat.
Proof.
  intro Hin. unfold count_value.
  assert (H : In p (filter (String.eqb p) l)).
  { apply filter_In. split; [exact Hin|apply String.eqb_refl]. }
  destruct (filter _ l); [destruct H|simpl; lia].
Qed.

Lemma save_results_counts_list (df : list (stats_row * string)) :
  map (fun row => (Pattern row, Count row)) (save_results df)
  = value_counts (map snd df).
Proof.
  unfold save_results. rewrite map_map. simpl.
  rewrite <- (map_id (value_counts (map snd df))) at 2.
  apply map_ext. intros [p c]. reflexivity.
Qed.

Lemma summary_facts (df : list (stats_row * string)) :
  list_sum (map Count (save_results df)) = length df
  /\ NoDup (map Pattern (save_results df))
  /\ (forall p, In p (map Pattern (save_results df)) <-> In p (map snd df)).
Proof.
  assert (Hc : map Count (save_results df) = map snd (value_counts (map snd df))).
  { rewrite <- save_results_counts_list, map_map. reflexivity. }
  assert (Hp : map Pattern (save_results df) = map fst (value_counts (map snd df))).
  { rewrite <- save_results_counts_list, map_map. reflexivity. }
  split; [|split].
  - rewrite Hc, value_counts_total. apply length_map.
  - rewrite Hp.
    apply (Permutation_NoDup
             (Permutation_sym (Permutation_map fst (value_counts_perm (map snd df))))).
    rewrite map_map. simpl. rewrite map_id. apply unique_values_NoDup.
  - intro p. rewrite Hp. split.
    + intro Hin. apply in_map_iff in Hin. destruct Hin as [[q c] [E Hin]].
      simpl in E. subst q. apply in_value_counts in Hin. tauto.
    + intro Hin. apply in_map_iff. exists (p, count_value p (map snd df)).
      split; [reflexivity|]. apply in_value_counts. auto.
Qed.

(** X5.  The summary lists every pattern that occurs exactly once, with
    the number of rows that carry it, the most frequent first; the counts
    add up to the number of classified rows. *)
Theorem save_results_counts (df : list (stats_row * string)) :
  let summary := save_results df in
  list_sum (map Count summary) = length df
  /\ NoDup (map Pattern summary)
  /\ (forall p, In p (map Pattern summary) <-> In p (map snd df))
  /\ (forall row, In row summary ->
        Count row = count_value (Pattern row) (map snd df)
        /\ (1 <= Count row)%nat)
  /\ StronglySorted (fun a b => (Count b <= Count a)%nat) summary.
Proof.
  cbv zeta. destruct (summary_facts df) as [Hsum [Hnd Hin]].
  split; [exact Hsum|]. split; [exact Hnd|]. split; [exact Hin|]. split.
  - intros row Hrow.
    assert (H : In (Pattern row, Count row) (value_counts (map snd df))).
    { rewrite <- save_results_counts_list.
      apply (in_map (fun row => (Pattern row, Count row))). exact Hrow. }
    apply in_value_counts in H. destruct H as [Hp ->].
    split; [reflexivity|]. apply count_value_pos. exact Hp.
  - unfold save_results.
    apply StronglySorted_map
      with (R := fun a b : string * nat => (snd b <=? snd a)%nat = true).
    + intros a b H. simpl. apply Nat.leb_le. exact H.
    + apply sort_values_sorted.
      * intros a b. destruct (Nat.leb_spec (snd b) (snd a)); [auto|].
        right. apply Nat.leb_le. lia.
      * intros a b c. rewrite !Nat.leb_le. lia.
Qed.

Lemma percentages_sum (cs : list nat) (N : nat) :
  (1 <= N)%nat -> list_sum cs = N ->
  Pd.sum (map (fun c => fdiv (of_nat c) (of_nat N)) cs) = Fin 1.
Proof.
  intros HN Hsum.
  assert (Hmap : map (fun c => fdiv (of_nat c) (of_nat N)) cs
                 = map Fin (map (fun c => Qred (inject_Z (Z.of_nat c)
                                                / inject_Z (Z.of_nat N))) cs)).
  { rewrite map_map. apply map_ext. intro c. apply of_nat_div. exact HN. }
  rewrite Hmap. unfold Pd.sum.
  assert (Hdrop : forall qs, Pd.dropna (map Fin qs) = map Fin qs).
  { induction qs as [|q r IH]; simpl; [reflexivity|]. rewrite IH. reflexivity. }
  rewrite Hdrop.
  destruct (np_sum_fin (map (fun c => Qred (inject_Z (Z.of_nat c)
                                            / inject_Z (Z.of_nat N))) cs))
    as [q [Hq [Hval Hcan]]].
  rewrite Hq. rewrite <- Hcan. change 1 with (Qred 1).
  apply (f_equal Fin), Qred_complete. rewrite Hval.
  assert (Hgen : forall l, Pd.Qsum (map (fun c => Qred (inject_Z (Z.of_nat c)
                                                 / inject_Z (Z.of_nat N))) l)
                           == inject_Z (Z.of_nat (list_sum l)) / inject_Z (Z.of_nat N)).
  { induction l as [|c r IH].
    - simpl. unfold Qdiv. ring.
    - cbn [map Pd.Qsum]. change (list_sum (c :: r)) with (c + list_sum r)%nat.
      rewrite IH, Qred_correct, Nat2Z.inj_add, inject_Z_plus. unfold Qdiv. ring. }
  rewrite Hgen, Hsum. apply Qmult_inv_r.
  intro H. unfold Qeq in H. simpl in H. lia.
Qed.

(** X6.  For a table with at least one classified row every percentage
    is the count divided by the number of rows, and the percentages add
    up to exactly 1. *)
Theorem save_results_percentages (df : list (stats_row * string)) :
  df <> [] ->
  Pd.sum (map Percentage (save_results df)) = Fin 1
  /\ (forall row, In row (save_results df) ->
        Percentage row
        = fin (inject_Z (Z.of_nat (Count row)) / inject_Z (Z.of_nat (length df)))).
Proof.
  intro Hne.
  assert (HN : (1 <= length df)%nat) by (destruct df; [congruence|simpl; lia]).
  pose proof (value_counts_total (map snd df)) as Htot. rewrite length_map in Htot.
  unfold save_results. rewrite Htot. split.
  - rewrite map_map. cbn [Percentage].
    rewrite <- (map_map snd (fun c => fdiv (of_nat c) (of_nat (length df)))).
    apply percentages_sum; assumption.
  - intros row Hin. apply in_map_iff in Hin. destruct Hin as [pc [<- _]].
    cbn [Percentage Count]. apply of_nat_div. exact HN.
Qed.

(** X7.  The summary of a classified statistics table has at most four
    rows, each for one of the four patterns. *)
Theorem summary_of_classified (stats : list stats_row) :
  let summary := save_results (classify_patterns stats) in
  (length summary <= 4)%nat
  /\ (forall row, In row summary ->
        In (Pattern row) ["Smooth"; "Erratic"; "Intermittent"; "Lumpy"]%string)
  /\ list_sum (map Count summary) = length stats.
Proof.
  cbv zeta.
  destruct (summary_facts (classify_patterns stats)) as [Hsum [Hnd Hin]].
  assert (Hfour : forall p, In p (map Pattern (save_results (classify_patterns stats))) ->
                  In p ["Smooth"; "Erratic"; "Intermittent"; "Lumpy"]%string).
  { intros p Hp. apply Hin in Hp. apply in_map_iff in Hp.
    destruct Hp as [[r q] [E Hrq]]. simpl in E. subst q.
    unfold classify_patterns in Hrq. apply in_map_iff in Hrq.
    destruct Hrq as [r' [E _]]. inversion E; subst. apply get_category_total. }
  repeat split.
  - rewrite <- (length_map Pattern).
    apply (NoDup_incl_length Hnd Hfour).
  - intros row Hrow. apply Hfour. apply in_map. exact Hrow.
  - rewrite Hsum. unfold classify_patterns. apply length_map.
Qed.

End SummaryProofs.

(** * Ranges of the engineered features *)

Module FeatureRanges.
Import InventorySegmentation.
Import FeatureProofs.

Lemma clip_unit (x : float64) :
  isnan x = false -> exists q, Pd.clip (Fin 0) (Fin 1) x = Fin q /\ 0 <= q /\ q <= 1.
Proof.
  destruct x as [a| | |]; intro H; try discriminate.
  - unfold Pd.clip, fgt, flt.
    destruct (Qltb a 0) eqn:E0.
    + exists 0. repeat split; [apply Qle_refl|discriminate].
    + destruct (Qltb 1 a) eqn:E1.
      * exists 1. repeat split; [discriminate|apply Qle_refl].
      * exists a. apply Qltb_false in E0, E1. auto.
  - exists 1. repeat split; [discriminate|apply Qle_refl].
  - exists 0. repeat split; [apply Qle_refl|discriminate].
Qed.

Lemma fillna_not_nan (x : float64) : isnan (Pd.fillna (Fin 0) x) = false.
Proof. destruct x; reflexivity. Qed.

Lemma key3_eqb_eq (a b : key3) : key3_eqb a b = true <-> a = b.
Proof.
  destruct a as [a m], b as [b n]. unfold key3_eqb. simpl.
  rewrite andb_true_iff, key2_eqb_eq, Z.eqb_eq. split.
  - intros [-> ->]. reflexivity.
  - intro H. inversion H. auto.
Qed.

Lemma in_seasonality (Qsqrt : Q -> Q) (df : list sales_row) (k : key2) (v : float64) :
  In (k, v) (_calculate_seasonality_strength Qsqrt df) ->
  exists x, v = Pd.clip (Fin 0) (Fin 1) (Pd.fillna (Fin 0) x).
Proof.
  unfold _calculate_seasonality_strength, map_values. rewrite !map_map. simpl.
  rewrite in_map_iff. intros [kg [E _]]. inversion E. eexists. reflexivity.
Qed.

Lemma seasonality_has_entity (Qsqrt : Q -> Q) (df : list sales_row) (row : sales_row) :
  In row df -> exists v, In (entity row, v) (_calculate_seasonality_strength Qsqrt df).
Proof.
  intro Hrow. unfold _calculate_seasonality_strength, map_values. rewrite !map_map. simpl.
  match goal with
  | |- context [Pd.groupby _ key2_eqb key2_leb ?m] => set (monthly := m)
  end.
  eexists. apply in_map_iff.
  exists (entity row,
          Pd.group_rows (fun km : key3 * float64 => fst (fst km)) key2_eqb (entity row) monthly).
  split; [reflexivity|].
  unfold Pd.groupby.
  apply (in_map (fun k => (k, Pd.group_rows (fun km : key3 * float64 => fst (fst km))
                                            key2_eqb k monthly))).
  apply in_unique_keys; [exact key2_eqb_eq|].
  exists ((entity row, month (date row)),
          Pd.mean (map sales (Pd.group_rows (fun r => (entity r, month (date r)))
                                            key3_eqb (entity row, month (date row)) df))).
  split; [|reflexivity].
  unfold monthly, Pd.groupby. rewrite map_map. simpl.
  apply (in_map (fun k => (k, Pd.mean (map sales (Pd.group_rows
                         (fun r => (entity r, month (date r))) key3_eqb k df))))).
  apply in_unique_keys; [exact key3_eqb_eq|]. exists row. auto.
Qed.

(** X8.  Every entity of the table gets a seasonality strength, and it
    is a finite number between 0 and 1. *)
Theorem seasonality_in_unit_interval
    (Qsqrt : Q -> Q) (df : list sales_row) (row : sales_row) :
  In row df ->
  (exists v, In (entity row, v) (_calculate_seasonality_strength Qsqrt df))
  /\ (forall v, In (entity row, v) (_calculate_seasonality_strength Qsqrt df) ->
        exists q, v = Fin q /\ 0 <= q /\ q <= 1).
Proof.
  intro Hrow. split; [apply seasonality_has_entity; exact Hrow|].
  intros v Hin. apply in_seasonality in Hin. destruct Hin as [x ->].
  apply clip_unit, fillna_not_nan.
Qed.

Lemma fle_trans (x y z : float64) :
  fle x y = true -> fle y z = true -> fle x z = true.
Proof.
  destruct x as [a| | |], y as [b| | |], z as [c| | |]; simpl;
    try discriminate; try reflexivity.
  rewrite !Qle_bool_iff. apply Qle_trans.
Qed.

Lemma fle_refl (x : float64) : isnan x = false -> fle x x = true.
Proof.
  destruct x; simpl; try discriminate; try reflexivity.
  intros _. apply Qle_bool_iff, Qle_refl.
Qed.

Lemma fle_of_not_flt (x y : float64) :
  isnan x = false -> isnan y = false -> flt x y = false -> fle y x = true.
Proof.
  destruct x as [a| | |], y as [b| | |]; simpl; try discriminate; try reflexivity.
  intros _ _ H. apply Qle_bool_iff. apply Qltb_false. exact H.
Qed.

Lemma fle_of_flt (x y : float64) : flt x y = true -> fle x y = true.
Proof.
  destruct x as [a| | |], y as [b| | |]; simpl; try discriminate; try reflexivity.
  intro H. apply Qle_bool_iff, Qlt_le_weak, Qltb_true. exact H.
Qed.

Lemma flt_not_nan (x y : float64) : flt x y = true -> isnan x = false /\ isnan y = false.
Proof. destruct x, y; simpl; try discriminate; auto. Qed.

Lemma fmax_upper (a b : float64) :
  isnan a = false -> isnan b = false ->
  isnan (Pd.fmax a b) = false
  /\ fle a (Pd.fmax a b) = true
  /\ fle b (Pd.fmax a b) = true.
Proof.
  intros Ha Hb. unfold Pd.fmax. destruct (flt a b) eqn:E.
  - repeat split; [exact Hb|apply fle_of_flt; exact E|apply fle_refl; exact Hb].
  - repeat split; [exact Ha|apply fle_refl; exact Ha|apply fle_of_not_flt; assumption].
Qed.

Lemma fold_fmax_upper (r : list float64) (acc : float64) :
  isnan acc = false ->
  (forall x, In x r -> isnan x = false) ->
  isnan (fold_left Pd.fmax r acc) = false
  /\ fle acc (fold_left Pd.fmax r acc) = true
  /\ (forall x, In x r -> fle x (fold_left Pd.fmax r acc) = true).
Proof.
  revert acc. induction r as [|y r IH]; intros acc Hacc Hall; simpl.
  - repeat split; [exact Hacc|apply fle_refl; exact Hacc|intros x []].
  - destruct (fmax_upper acc y Hacc (Hall y (or_introl eq_refl))) as [Hn [Ha Hy]].
    destruct (IH (Pd.fmax acc y) Hn (fun x Hx => Hall x (or_intror Hx)))
      as [Hn' [Hm Hr]].
    repeat split; [exact Hn'|eapply fle_trans; eassumption|].
    intros x [<-|Hx]; [eapply fle_trans; eassumption|apply Hr; exact Hx].
Qed.

(** [max] bounds every value that is not missing. *)
Lemma max_upper (l : list float64) (x : float64) :
  In x l -> isnan x = false -> fle x (Pd.max l) = true.
Proof.
  intros Hin Hx. unfold Pd.max.
  assert (Hd : In x (Pd.dropna l)).
  { apply filter_In. rewrite Hx. auto. }
  assert (Hall : forall y, In y (Pd.dropna l) -> isnan y = false).
  { intros y Hy. apply filter_In in Hy. destruct Hy as [_ Hy].
    apply negb_true_iff. exact Hy. }
  destruct (Pd.dropna l) as [|y r]; [destruct Hd|].
  destruct (fold_fmax_upper r y (Hall y (or_introl eq_refl))
              (fun z Hz => Hall z (or_intror Hz))) as [_ [Hy Hr]].
  destruct Hd as [<-|Hd]; [exact Hy|apply Hr; exact Hd].
Qed.

(** A slope divided by a bound of its absolute value plus 1e-10. *)
Lemma normalised_slope (s m : float64) :
  (isnan s = false -> fle (fabs s) m = true) ->
  exists q, Pd.fillna (Fin 0) (fdiv s (fadd m (Fin 1e-10))) = Fin q
            /\ -(1) < q /\ q < 1.
Proof.
  intro Hb.
  assert (Hzero : exists q, Fin 0 = Fin q /\ -(1) < q /\ q < 1).
  { exists 0. repeat split. }
  destruct s as [a| | |]; [| | |exact Hzero].
  - specialize (Hb eq_refl). destruct m as [b| | |]; simpl in Hb; try discriminate.
    + apply Qle_bool_iff in Hb. rewrite Qred_correct in Hb.
      apply Qabs_Qle_condition in Hb. destruct Hb as [Hlo Hhi].
      assert (Hd : Qred (b + 1e-10) == b + 1e-10) by apply Qred_correct.
      assert (Heps : 0 < 1e-10) by reflexivity.
      assert (Hpos : 0 < Qred (b + 1e-10)) by (rewrite Hd; lra).
      unfold fadd, fin, fdiv.
      destruct (Qeq_bool (Qred (b + 1e-10)) 0) eqn:E.
      { apply Qeq_bool_iff in E. rewrite E in Hpos. exfalso. apply (Qlt_irrefl 0 Hpos). }
      exists (Qred (a / Qred (b + 1e-10))). split; [reflexivity|].
      rewrite Qred_correct. split.
      * apply Qlt_shift_div_l; [exact Hpos|]. rewrite Hd. lra.
      * apply Qlt_shift_div_r; [exact Hpos|]. rewrite Hd. lra.
    + exact Hzero.
  - specialize (Hb eq_refl). destruct m; simpl in Hb; try discriminate. exact Hzero.
  - specialize (Hb eq_refl). destruct m; simpl in Hb; try discriminate. exact Hzero.
Qed.

Lemma in_trend_slope_max (df : list sales_row) (k : key2) (v : float64) :
  In (k, v) (normalised_slopes df) ->
  exists s abs_slopes,
    v = Pd.fillna (Fin 0) (fdiv s (fadd (Pd.max abs_slopes) (Fin 1e-10)))
    /\ In (fabs s) abs_slopes.
Proof.
  unfold normalised_slopes, map_values. rewrite !map_map. cbn [fst snd].
  rewrite in_map_iff. intros [kg [E Hin]]. inversion E; subst.
  eexists. eexists. split; [reflexivity|].
  apply (in_map (fun kg0 => fabs (calculate_slope (snd kg0)))). exact Hin.
Qed.

Lemma fabs_not_nan (s : float64) : isnan s = false -> isnan (fabs s) = false.
Proof. destruct s; simpl; auto. Qed.

(** X9.  On a table with a row the method returns a slope for every
    entity, and after the division by the largest absolute slope plus
    1e-10 it is a finite number between -1 and 1, whatever the raw slopes
    were (missing and infinite ones included).  A slope is divided by a
    number that is at least its absolute value, so the bounds hold for
    rounded quotients as they do for exact ones. *)
Theorem trend_slope_normalised (df : list sales_row) (row : sales_row) :
  In row df ->
  exists slopes,
    _calculate_trend_slope df = Ok slopes
    /\ (exists v, In (entity row, v) slopes)
    /\ (forall v, In (entity row, v) slopes ->
          exists q, v = Fin q /\ -(1) <= q /\ q <= 1).
Proof.
  intro Hrow. exists (normalised_slopes df). split; [|split].
  - apply trend_slope_returns. intro E. rewrite E in Hrow. destruct Hrow.
  - apply trend_slope_has_entity; exact Hrow.
  - intros v Hin. apply in_trend_slope_max in Hin.
    destruct Hin as [s [abs_slopes [-> Hs]]].
    destruct (@normalised_slope s (Pd.max abs_slopes)) as [q [Hq [Hlo Hhi]]].
    + intro Hnan. apply max_upper; [exact Hs|apply fabs_not_nan; exact Hnan].
    + exists q. split; [exact Hq|]. split; apply Qlt_le_weak; assumption.
Qed.

End FeatureRanges.

(** * Degenerate series *)

Module FeatureEdges.
Import InventorySegmentation.
Import FeatureProofs.

Lemma fadd_zero_or_nan (x y : float64) :
  zero_or_nan x -> zero_or_nan y -> zero_or_nan (fadd x y).
Proof.
  intros [-> | ->] [-> | ->]; [left|right|right|right]; reflexivity.
Qed.

Lemma np_sum_zero_or_nan (l : list float64) :
  (forall x, In x l -> zero_or_nan x) -> zero_or_nan (Pd.np_sum l).
Proof.
  unfold Pd.np_sum.
  assert (H : forall acc, zero_or_nan acc ->
              (forall x, In x l -> zero_or_nan x) ->
              zero_or_nan (fold_left fadd l acc)).
  { induction l as [|y r IH]; intros acc Hacc Hall; simpl; [exact Hacc|].
    apply IH.
    - apply fadd_zero_or_nan; [exact Hacc|apply Hall; left; reflexivity].
    - intros x Hx. apply Hall. right. exact Hx. }
  apply H. left. reflexivity.
Qed.

Lemma fdiv_zero_or_nan (x y : float64) : zero_or_nan x -> zero_or_nan (fdiv x y).
Proof.
  intros [-> | ->]; [|right; destruct y; reflexivity].
  destruct (fdiv_zero_l y) as [H|H]; rewrite H; [left|right]; reflexivity.
Qed.

Lemma np_mean_zero_or_nan (l : list float64) :
  (forall x, In x l -> zero_or_nan x) -> zero_or_nan (Pd.np_mean l).
Proof.
  intro H. unfold Pd.np_mean. apply fdiv_zero_or_nan, np_sum_zero_or_nan, H.
Qed.

Lemma fmul_zero_r (z x : float64) : zero_or_nan x -> zero_or_nan (fmul z x).
Proof.
  intros [-> | ->]; [|right; destruct z; reflexivity].
  destruct z as [a| | |]; [left|right|right|right]; try reflexivity.
  unfold fmul, fin. change (Fin 0) with (Fin (Qred 0)).
  apply (f_equal Fin), Qred_complete. ring.
Qed.

Lemma fillna_zero_or_nan (x : float64) : zero_or_nan x -> Pd.fillna (Fin 0) x = Fin 0.
Proof. intros [-> | ->]; reflexivity. Qed.

(** The mean of [n >= 1] copies of a finite value, taken off each copy. *)
Lemma constant_minus_mean (c : Q) (y : list float64) :
  (forall v, In v y -> v = Fin c) ->
  forall v, In v y -> zero_or_nan (fsub v (Pd.np_mean y)).
Proof.
  intros Hy v Hv.
  assert (Hmap : y = map Fin (map (fun _ => c) y)).
  { clear v Hv. induction y as [|v r IH]; simpl; [reflexivity|].
    rewrite <- IH by (intros w Hw; apply Hy; right; exact Hw).
    rewrite (Hy v) by (left; reflexivity). reflexivity. }
  assert (Hn : (1 <= length y)%nat) by (destruct y; [destruct Hv|simpl; lia]).
  assert (Hsum : Pd.Qsum (map (fun _ => c) y) == inject_Z (Z.of_nat (length y)) * c).
  { clear. induction y as [|v r IH].
    - simpl. ring.
    - cbn [map Pd.Qsum length]. rewrite IH, Nat2Z.inj_succ, <- Z.add_1_r, inject_Z_plus.
      change (inject_Z 1) with 1. ring. }
  rewrite (Hy v Hv). unfold Pd.np_mean. rewrite Hmap at 1.
  destruct (np_sum_fin (map (fun _ => c) y)) as [q [Hq [Hval _]]].
  rewrite Hq. unfold of_nat, fin, fdiv.
  destruct (Qeq_bool (Qred (inject_Z (Z.of_nat (length y)))) 0) eqn:E.
  { apply Qeq_bool_iff in E. rewrite Qred_correct in E.
    unfold Qeq in E. simpl in E. lia. }
  left. unfold fsub, fneg, fadd, fin. change (Fin 0) with (Fin (Qred 0)).
  apply (f_equal Fin), Qred_complete.
  rewrite !Qred_correct, Hval, Hsum. field.
  intro H. unfold Qeq in H. simpl in H. lia.
Qed.

Lemma linregress_constant (c : Q) (x y : list float64) :
  (forall v, In v y -> v = Fin c) ->
  zero_or_nan (linregress_slope x y).
Proof.
  intro Hy. unfold linregress_slope.
  apply fdiv_zero_or_nan, np_mean_zero_or_nan.
  intros p Hp. apply in_map_iff in Hp. destruct Hp as [[xi yi] [<- Hin]].
  cbn [fst snd]. apply fmul_zero_r.
  apply (@constant_minus_mean c y Hy). apply (in_combine_r _ _ _ _ Hin).
Qed.

Lemma calculate_slope_constant (c : Q) (group : list sales_row) :
  (forall r, In r group -> sales r = Fin c) ->
  zero_or_nan (calculate_slope group).
Proof.
  intro H. unfold calculate_slope.
  destruct (length group <? 10)%nat; [left; reflexivity|].
  apply (@linregress_constant c).
  intros v Hv. apply in_map_iff in Hv. destruct Hv as [r [<- Hr]]. apply H. exact Hr.
Qed.

(** X10.  An entity whose sales are the same finite value in every
    observation has trend slope exactly 0, however many observations it
    has. *)
Theorem constant_sales_no_trend (df : list sales_row) (row : sales_row) (c : Q) :
  In row df ->
  (forall r, In r (Pd.group_rows entity key2_eqb (entity row) df) -> sales r = Fin c) ->
  exists slopes,
    _calculate_trend_slope df = Ok slopes
    /\ loc_or_nan slopes (entity row) = Fin 0.
Proof.
  intros Hrow Hconst. exists (normalised_slopes df).
  split; [apply trend_slope_returns; intro E; rewrite E in Hrow; destruct Hrow|].
  assert (Hall : forall v, In (entity row, v) (normalised_slopes df) -> v = Fin 0).
  { intros v Hin. apply in_trend_slope in Hin. destruct Hin as [denom ->].
    apply fillna_zero_or_nan, fdiv_zero_or_nan.
    apply (@calculate_slope_constant c). exact Hconst. }
  unfold loc_or_nan.
  destruct (Pd.lookup key2_eqb (entity row) (normalised_slopes df)) as [v|] eqn:E.
  - apply lookup_some in E; [|exact key2_eqb_eq]. apply Hall; exact E.
  - destruct (trend_slope_has_entity df row Hrow) as [v Hv].
    exfalso. revert Hv. apply lookup_none with (keqb := key2_eqb).
    + exact key2_eqb_eq.
    + exact E.
Qed.

End FeatureEdges.

(** * Degenerate series, continued *)

Module DegenerateSeries.
Import InventorySegmentation.
Import FeatureProofs.
Import FeatureEdges.
Import FeatureRanges.

Lemma in_demand_cv (Qsqrt : Q -> Q) (df : list sales_row) (k : key2) (v : float64) :
  In (k, v) (demand_cv_column Qsqrt df) ->
  v = Pd.replace_inf (Fin 0)
        (Pd.fillna (Fin 0)
           (fdiv (Pd.std Qsqrt (map sales (Pd.group_rows entity key2_eqb k df)))
                 (Pd.mean (map sales (Pd.group_rows entity key2_eqb k df))))).
Proof.
  unfold demand_cv_column, map_values. rewrite !map_map. cbn [fst snd].
  rewrite in_map_iff. intros [[k' g] [E Hin]]. cbn [fst snd] in E.
  apply in_groupby in Hin; [|exact key2_eqb_eq]. destruct Hin as [-> _].
  inversion E; subst. reflexivity.
Qed.

Lemma demand_cv_has_entity (Qsqrt : Q -> Q) (df : list sales_row) (row : sales_row) :
  In row df -> exists v, In (entity row, v) (demand_cv_column Qsqrt df).
Proof.
  intro Hrow. unfold demand_cv_column, map_values. rewrite !map_map. cbn [fst snd].
  eexists. apply in_map_iff.
  exists (entity row, Pd.group_rows entity key2_eqb (entity row) df).
  split; [reflexivity|].
  unfold by_entity, Pd.groupby.
  apply (in_map (fun k => (k, Pd.group_rows entity key2_eqb k df))).
  apply in_unique_keys; [exact key2_eqb_eq|]. exists row. auto.
Qed.

(** The value a keyed series holds for a label it has. *)
Lemma loc_of_entries (s : series) (k : key2) (P : float64 -> Prop) :
  (exists v, In (k, v) s) ->
  (forall v, In (k, v) s -> P v) ->
  P (loc_or_nan s k).
Proof.
  intros [v0 Hv0] Hall. unfold loc_or_nan.
  destruct (Pd.lookup key2_eqb k s) as [v|] eqn:E.
  - apply Hall. apply lookup_some with (keqb := key2_eqb); [exact key2_eqb_eq|exact E].
  - exfalso. revert Hv0. apply lookup_none with (keqb := key2_eqb);
      [exact key2_eqb_eq|exact E].
Qed.

Lemma clean_ratio_over_zero (s m : float64) :
  zero_or_nan m ->
  Pd.replace_inf (Fin 0) (Pd.fillna (Fin 0) (fdiv s m)) = Fin 0.
Proof.
  intros [-> | ->]; [|destruct s; reflexivity].
  destruct s as [a| | |]; try reflexivity.
  unfold fdiv. change (Qeq_bool 0 0) with true. cbv iota.
  unfold inf_of_sign. destruct (a ?= 0); reflexivity.
Qed.

Lemma dropna_zeros (l : list float64) :
  (forall x, In x l -> x = Fin 0) -> Pd.dropna l = l.
Proof.
  induction l as [|x r IH]; intro H; simpl; [reflexivity|].
  rewrite (H x (or_introl eq_refl)). simpl.
  f_equal. apply IH. intros y Hy. apply H. right. exact Hy.
Qed.

Lemma mean_zeros (l : list float64) :
  (forall x, In x l -> x = Fin 0) -> zero_or_nan (Pd.mean l).
Proof.
  intro H. unfold Pd.mean. rewrite (@dropna_zeros l H).
  destruct l as [|x r]; [right; reflexivity|].
  apply fdiv_zero_or_nan, np_sum_zero_or_nan.
  intros y Hy. left. apply H. exact Hy.
Qed.

Lemma std_single (Qsqrt : Q -> Q) (l : list float64) :
  (length l <= 1)%nat -> Pd.std Qsqrt l = NaN.
Proof.
  intro H. unfold Pd.std, Pd.std_ddof.
  assert (Hd : (length (Pd.dropna l) <= 1)%nat).
  { unfold Pd.dropna. pose proof (filter_length_le (fun x => negb (isnan x)) l). lia. }
  destruct (Nat.leb_spec (length (Pd.dropna l)) 1); [reflexivity|lia].
Qed.

(** X11.  The demand CV of every entity is a finite number, and it is 0
    both for an entity whose sales are all 0 (the mean is 0) and for an
    entity with a single observation (the deviation is undefined). *)
Theorem demand_cv_degenerate
    (Qsqrt : Q -> Q) (df : list sales_row) (row : sales_row) :
  In row df ->
  let group := Pd.group_rows entity key2_eqb (entity row) df in
  isfinite (loc_or_nan (demand_cv_column Qsqrt df) (entity row)) = true
  /\ ((forall r, In r group -> sales r = Fin 0) ->
      loc_or_nan (demand_cv_column Qsqrt df) (entity row) = Fin 0)
  /\ (length group = 1%nat ->
      loc_or_nan (demand_cv_column Qsqrt df) (entity row) = Fin 0).
Proof.
  intro Hrow. cbv zeta.
  pose proof (demand_cv_has_entity Qsqrt df row Hrow) as Hex.
  repeat split.
  - apply loc_of_entries; [exact Hex|].
    intros v Hv. apply in_demand_cv in Hv. rewrite Hv.
    destruct (fdiv _ _); reflexivity.
  - intro Hzero. apply loc_of_entries; [exact Hex|].
    intros v Hv. apply in_demand_cv in Hv. rewrite Hv.
    apply clean_ratio_over_zero, mean_zeros.
    intros x Hx. apply in_map_iff in Hx. destruct Hx as [r [<- Hr]].
    apply Hzero. exact Hr.
  - intro Hone. apply loc_of_entries; [exact Hex|].
    intros v Hv. apply in_demand_cv in Hv. rewrite Hv.
    rewrite std_single by (rewrite length_map; lia). reflexivity.
Qed.

Lemma key3_leb_spec (a b : key3) :
  key3_leb a b = true <->
  (key2_leb (fst a) (fst b) = true /\ fst a <> fst b)
  \/ (fst a = fst b /\ (snd a <= snd b)%Z).
Proof.
  unfold key3_leb.
  rewrite orb_true_iff, !andb_true_iff, negb_true_iff, key2_eqb_eq, Z.leb_le.
  assert (H : key2_eqb (fst a) (fst b) = false <-> fst a <> fst b).
  { rewrite <- key2_eqb_eq. destruct (key2_eqb (fst a) (fst b)); split; congruence. }
  rewrite H. reflexivity.
Qed.

Lemma key3_leb_total (a b : key3) : key3_leb a b = true \/ key3_leb b a = true.
Proof.
  rewrite !key3_leb_spec.
  destruct (key2_eqb (fst a) (fst b)) eqn:E.
  - apply key2_eqb_eq in E. destruct (Z.le_ge_cases (snd a) (snd b)); auto.
  - assert (Hne : fst a <> fst b).
    { intro H. apply key2_eqb_eq in H. congruence. }
    destruct (key2_leb_total (fst a) (fst b)); auto.
Qed.

Lemma key3_leb_antisym (a b : key3) :
  key3_leb a b = true -> key3_leb b a = true -> a = b.
Proof.
  rewrite !key3_leb_spec. destruct a as [a m], b as [b n]. simpl.
  intros [[H1 N1]|[E1 H1]] [[H2 N2]|[E2 H2]]; subst; try congruence.
  - exfalso. apply N1. apply key2_leb_antisym; assumption.
  - f_equal. lia.
Qed.

Lemma key3_leb_trans (a b c : key3) :
  key3_leb a b = true -> key3_leb b c = true -> key3_leb a c = true.
Proof.
  rewrite !key3_leb_spec. destruct a as [a m], b as [b n], c as [c o]. simpl.
  intros [[H1 N1]|[E1 H1]] [[H2 N2]|[E2 H2]]; subst.
  - left. split; [eapply key2_leb_trans; eassumption|].
    intro H. subst c. apply N1. apply key2_leb_antisym; assumption.
  - left. auto.
  - left. auto.
  - right. split; [reflexivity|lia].
Qed.

(** In a keyed list without repeated labels at most one entry has a given
    label. *)
Lemma one_entry_per_label (K V : Type) (p : K * V -> bool) (k0 : K) (l : list (K * V)) :
  NoDup (map fst l) ->
  (forall e, In e l -> p e = true -> fst e = k0) ->
  (length (filter p l) <= 1)%nat.
Proof.
  induction l as [|e r IH]; intros Hnd Hp; simpl; [lia|].
  inversion Hnd as [|? ? Hnotin Hnd']; subst.
  assert (IHr : (length (filter p r) <= 1)%nat).
  { apply IH; [exact Hnd'|]. intros e' He'. apply Hp. right. exact He'. }
  destruct (p e) eqn:E; [|exact IHr].
  simpl. destruct (filter p r) as [|e' r'] eqn:F; [simpl; lia|].
  exfalso. apply Hnotin.
  assert (He' : In e' (filter p r)) by (rewrite F; left; reflexivity).
  apply filter_In in He'. destruct He' as [Hin Hpe'].
  rewrite (Hp e (or_introl eq_refl) E).
  rewrite <- (Hp e' (or_intror Hin) Hpe').
  apply in_map. exact Hin.
Qed.

Lemma in_seasonality_group (Qsqrt : Q -> Q) (df : list sales_row) (k : key2) (v : float64) :
  In (k, v) (_calculate_seasonality_strength Qsqrt df) ->
  exists overall,
    v = Pd.clip (Fin 0) (Fin 1)
          (Pd.fillna (Fin 0)
             (fdiv (Pd.std Qsqrt
                      (map snd
                         (Pd.group_rows (fun km : key3 * float64 => fst (fst km))
                            key2_eqb k
                            (map (fun kg => (fst kg, Pd.mean (map sales (snd kg))))
                                 (Pd.groupby (fun r => (entity r, month (date r)))
                                             key3_eqb key3_leb df)))))
                   overall)).
Proof.
  unfold _calculate_seasonality_strength, map_values. rewrite !map_map. cbn [fst snd].
  rewrite in_map_iff. intros [[k' g] [E Hin]]. cbn [fst snd] in E.
  apply in_groupby in Hin; [|exact key2_eqb_eq]. destruct Hin as [-> _].
  inversion E; subst. eexists. reflexivity.
Qed.

(** X12.  An entity all of whose observations fall in the same calendar
    month has seasonality strength 0: there is a single monthly mean, and
    its deviation is undefined. *)
Theorem single_month_no_seasonality
    (Qsqrt : Q -> Q) (df : list sales_row) (row : sales_row) :
  In row df ->
  (forall r, In r (Pd.group_rows entity key2_eqb (entity row) df) ->
             month (date r) = month (date row)) ->
  loc_or_nan (_calculate_seasonality_strength Qsqrt df) (entity row) = Fin 0.
Proof.
  intros Hrow Hmonth.
  apply loc_of_entries; [apply seasonality_has_entity; exact Hrow|].
  intros v Hv. apply in_seasonality_group in Hv. destruct Hv as [overall ->].
  rewrite std_single; [reflexivity|].
  rewrite length_map. unfold Pd.group_rows at 1.
  apply one_entry_per_label with (k0 := (entity row, month (date row))).
  - rewrite map_map. cbn [fst]. rewrite groupby_keys.
    apply unique_keys_NoDup;
      [exact key3_eqb_eq|exact key3_leb_total|exact key3_leb_antisym|exact key3_leb_trans].
  - intros [[k m] x] Hin Hk. cbn [fst snd] in *.
    apply key2_eqb_eq in Hk. subst k.
    apply in_map_iff in Hin. destruct Hin as [[k3 g] [E Hin]]. cbn [fst snd] in E.
    inversion E; subst k3. clear E.
    apply in_groupby in Hin; [|exact key3_eqb_eq].
    destruct Hin as [_ [r [Hr Hkey]]].
    pose proof (f_equal fst Hkey) as He. pose proof (f_equal snd Hkey) as Hm.
    cbn [fst snd] in He, Hm. f_equal. rewrite <- Hm. apply Hmonth.
    apply filter_In. split; [exact Hr|]. apply key2_eqb_eq. exact He.
Qed.

End DegenerateSeries.

(** * Further properties of the model object and of the labels *)

Module SegmenterEdges.
Import InventorySegmentation.
Import FeatureProofs.
Import SegmenterProofs.

Lemma dropna_at_least (m : Q) (l : list float64) :
  (forall x, In x l -> at_least m x) -> Pd.dropna l = l.
Proof.
  induction l as [|x r IH]; intro H; simpl; [reflexivity|].
  destruct (H x (or_introl eq_refl)) as [y [-> _]]. simpl.
  f_equal. apply IH. intros z Hz. apply H. right. exact Hz.
Qed.

Lemma interpolate_at_least (m : Q) (a b : float64) (t : Q) :
  at_least m a -> at_least m b -> 0 <= t -> t <= 1 ->
  at_least m (fadd a (fmul (fsub b a) (fin t))).
Proof.
  intros [ya [-> Ha]] [yb [-> Hb]] Ht0 Ht1.
  unfold fsub, fneg, fadd, fmul, fin. eexists. split; [reflexivity|].
  rewrite !Qred_correct.
  assert (H : ya + (yb + - ya) * t - m == (1 - t) * (ya - m) + t * (yb - m)) by ring.
  assert (H1 : 0 <= (1 - t) * (ya - m)) by (apply Qmult_le_0_compat; lra).
  assert (H2 : 0 <= t * (yb - m)) by (apply Qmult_le_0_compat; lra).
  lra.
Qed.

Lemma quantile_at_least (m q : Q) (l : list float64) :
  l <> [] -> 0 <= q -> q <= 1 ->
  (forall x, In x l -> at_least m x) ->
  at_least m (quantile q l).
Proof.
  intros Hne Hq0 Hq1 Hall. unfold quantile. rewrite (@dropna_at_least m l Hall).
  set (v := Pd.sort_values fle l).
  assert (Hperm : Permutation v l) by apply sort_values_perm.
  assert (Hv : forall x, In x v -> at_least m x).
  { intros x Hx. apply Hall. apply (Permutation_in _ Hperm). exact Hx. }
  assert (Hlen : (1 <= length v)%nat).
  { rewrite (Permutation_length Hperm). destruct l; [congruence|simpl; lia]. }
  destruct v as [|x0 v0] eqn:Ev; [simpl in Hlen; lia|]. rewrite <- Ev in *.
  set (pos := inject_Z (Z.of_nat (length v - 1)) * q).
  assert (Hn : 0 <= inject_Z (Z.of_nat (length v - 1))).
  { change 0 with (inject_Z 0). rewrite <- Zle_Qle. lia. }
  assert (Hpos0 : 0 <= pos) by (apply Qmult_le_0_compat; assumption).
  assert (Hpos1 : pos <= inject_Z (Z.of_nat (length v - 1))).
  { assert (H : 0 <= inject_Z (Z.of_nat (length v - 1)) * (1 - q))
      by (apply Qmult_le_0_compat; lra).
    unfold pos. lra. }
  assert (Hf0 : (0 <= Qfloor pos)%Z).
  { change 0%Z with (Qfloor 0). apply Qfloor_resp_le. exact Hpos0. }
  assert (Hf1 : (Qfloor pos <= Z.of_nat (length v - 1))%Z).
  { rewrite <- (Qfloor_Z (Z.of_nat (length v - 1))). apply Qfloor_resp_le. exact Hpos1. }
  apply interpolate_at_least.
  - apply Hv, nth_In. lia.
  - apply Hv, nth_In. lia.
  - pose proof (Qfloor_le pos). lra.
  - pose proof (Qlt_floor pos) as H. rewrite inject_Z_plus in H.
    change (inject_Z 1) with 1 in H. lra.
Qed.

Lemma lookup_in_list (cluster_stats : list (nat * cluster_means)) (c : nat)
    (stats : cluster_means) :
  Pd.lookup Nat.eqb c cluster_stats = Some stats -> In (c, stats) cluster_stats.
Proof.
  intro H. apply lookup_some with (keqb := Nat.eqb); [exact Nat.eqb_eq|exact H].
Qed.

(** X16.  When the cluster means of revenue are finite, a cluster whose
    mean is the lowest (ties included) is labelled Budget; in particular
    every cluster is Budget when all means are equal. *)
Theorem lowest_revenue_cluster_is_budget
    (cluster_stats : list (nat * cluster_means)) (c : nat)
    (stats : cluster_means) (m : Q) :
  Pd.lookup Nat.eqb c cluster_stats = Some stats ->
  cm_revenue_contribution stats = Fin m ->
  (forall cs, In cs cluster_stats ->
     exists y, cm_revenue_contribution (snd cs) = Fin y /\ m <= y) ->
  exists stability : string,
    label_of cluster_stats c = Ok ("Budget-" ++ stability)%string.
Proof.
  intros Hrow Hm Hmin. unfold label_of. rewrite Hrow.
  set (revenues := map (fun cs => cm_revenue_contribution (snd cs)) cluster_stats).
  assert (Hne : revenues <> []).
  { apply lookup_in_list in Hrow. unfold revenues.
    destruct cluster_stats; [destruct Hrow|discriminate]. }
  assert (Hall : forall x, In x revenues -> at_least m x).
  { intros x Hx. unfold revenues in Hx. apply in_map_iff in Hx.
    destruct Hx as [cs [<- Hcs]]. apply Hmin. exact Hcs. }
  assert (Hq : forall q, 0 <= q -> q <= 1 ->
               fgt (cm_revenue_contribution stats) (quantile q revenues) = false).
  { intros q Hq0 Hq1.
    destruct (quantile_at_least Hne Hq0 Hq1 Hall) as [y [-> Hy]].
    rewrite Hm. unfold fgt, flt. apply Qltb_false. exact Hy. }
  unfold value_label.
  rewrite (Hq 0.67) by (vm_compute; discriminate).
  rewrite (Hq 0.33) by (vm_compute; discriminate).
  eexists. reflexivity.
Qed.

Lemma label_clusters_keys (cluster_stats : list (nat * cluster_means)) (ids : list nat)
    (labels : list (nat * string)) :
  label_clusters cluster_stats ids = Ok labels -> map fst labels = ids.
Proof.
  revert labels. induction ids as [|c rest IH]; intros labels H; simpl in H.
  - inversion H. reflexivity.
  - destruct (label_of cluster_stats c) as [lab|e]; [|discriminate].
    cbn [bind] in H.
    destruct (label_clusters cluster_stats rest) as [ls|e]; [|discriminate].
    cbn [bind] in H. inversion H. simpl. f_equal. apply IH. reflexivity.
Qed.

(** X17.  When the method returns, it returns one label per entity, and
    the label is missing exactly for the entities whose cluster id is not
    in [range(n_clusters)]. *)
Theorem labels_outside_the_range
    (self : segmenter) (features : list feature_row) (clusters : list nat)
    (out : list (option string)) :
  assign_business_labels self features clusters = Ok out ->
  length out = length features
  /\ (forall i c, nth_error clusters i = Some c ->
        (nth_error out i = Some None <-> (n_clusters self <= c)%nat)).
Proof.
  unfold assign_business_labels.
  destruct (Nat.eqb_spec (length clusters) (length features)) as [Hlen|Hlen];
    [|discriminate].
  cbn [negb].
  destruct (label_clusters _ _) as [labels|e] eqn:E; [|discriminate].
  cbn [bind]. intro H. inversion H; subst out. clear H.
  apply label_clusters_keys in E.
  split; [rewrite length_map; exact Hlen|].
  intros i c Hi. rewrite nth_error_map, Hi. cbn [option_map].
  split.
  - intro H. inversion H as [Hnone].
    destruct (Nat.le_gt_cases (n_clusters self) c) as [Hle|Hgt]; [exact Hle|].
    destruct (@lookup_in_dict labels c) as [lab Hlab].
    { rewrite E. apply in_seq. lia. }
    congruence.
  - intro Hle. f_equal.
    destruct (Pd.lookup Nat.eqb c labels) as [lab|] eqn:L; [|reflexivity].
    apply lookup_some in L; [|exact Nat.eqb_eq].
    apply (in_map fst) in L. rewrite E in L. apply in_seq in L. simpl in L. lia.
Qed.


Lemma dropna_finite (qs : list Q) : Pd.dropna (map Fin qs) = map Fin qs.
Proof.
  induction qs as [|q r IH]; simpl; [reflexivity|]. rewrite IH. reflexivity.
Qed.

Lemma sort_finite (qs : list Q) :
  Pd.sort_values fle (map Fin qs) = map Fin (Pd.sort_values Qle_bool qs).
Proof.
  induction qs as [|q r IH]; simpl; [reflexivity|]. rewrite IH.
  generalize (Pd.sort_values Qle_bool r). intro l.
  induction l as [|y l IHl]; simpl; [reflexivity|].
  destruct (Qle_bool q y); simpl; [reflexivity|]. rewrite IHl. reflexivity.
Qed.

Lemma Qle_bool_total (a b : Q) : Qle_bool a b = true \/ Qle_bool b a = true.
Proof.
  rewrite !Qle_bool_iff. destruct (Qlt_le_dec a b) as [H|H]; [left|right]; lra.
Qed.

Lemma Qle_bool_trans (a b c : Q) :
  Qle_bool a b = true -> Qle_bool b c = true -> Qle_bool a c = true.
Proof. rewrite !Qle_bool_iff. apply Qle_trans. Qed.

Lemma nth_adjacent (A : Type) (d : A) (lo : nat) (l : list A) :
  (S lo < length l)%nat ->
  exists pre post, l = pre ++ nth lo l d :: nth (S lo) l d :: post.
Proof.
  revert l. induction lo as [|lo IH]; intros l Hlen.
  - destruct l as [|a [|b post]]; simpl in Hlen; try lia.
    exists [], post. reflexivity.
  - destruct l as [|a l]; simpl in Hlen; [lia|].
    destruct (IH l) as [pre [post E]]; [lia|].
    exists (a :: pre), post. simpl. f_equal. exact E.
Qed.

Lemma sorted_adjacent (A : Type) (R : A -> A -> Prop) (pre post : list A) (a b : A) :
  StronglySorted R (pre ++ a :: b :: post) -> R a b.
Proof.
  induction pre as [|x pre IH]; simpl; intro H.
  - inversion H as [|? ? _ Hall]. inversion Hall. assumption.
  - inversion H. apply IH. assumption.
Qed.

(** In an ascending list with a single element at or above [M], that
    element is not followed by another one. *)
Lemma below_the_top (M : Q) (qs : list Q) (lo : nat) :
  StronglySorted (fun a b => Qle_bool a b = true) qs ->
  length (filter (fun y => Qle_bool M y) qs) = 1%nat ->
  (S lo < length qs)%nat ->
  nth lo qs 0 < M.
Proof.
  intros Hs Hone Hlen.
  destruct (@nth_adjacent Q 0 lo qs Hlen) as [pre [post E]].
  set (a := nth lo qs 0) in *. set (b := nth (S lo) qs 0) in *.
  destruct (Qlt_le_dec a M) as [Hlt|Hge]; [exact Hlt|exfalso].
  assert (Hab : Qle_bool a b = true).
  { rewrite E in Hs. exact (@sorted_adjacent _ _ pre post a b Hs). }
  assert (Ha : Qle_bool M a = true) by (apply Qle_bool_iff; exact Hge).
  assert (Hb : Qle_bool M b = true) by (eapply Qle_bool_trans; eassumption).
  rewrite E, filter_app in Hone. simpl in Hone. rewrite Ha, Hb in Hone.
  rewrite length_app in Hone. simpl in Hone. lia.
Qed.

Lemma quantile_below_top (M : Q) (qs : list Q) :
  (2 <= length qs)%nat ->
  (forall y, In y qs -> y <= M) ->
  length (filter (fun y => Qle_bool M y) qs) = 1%nat ->
  exists r, quantile 0.67 (map Fin qs) = Fin r /\ r < M.
Proof.
  intros Hlen Hmax Hone. unfold quantile.
  rewrite dropna_finite, sort_finite.
  set (v := Pd.sort_values Qle_bool qs).
  assert (Hperm : Permutation v qs) by apply sort_values_perm.
  assert (Hs : StronglySorted (fun a b => Qle_bool a b = true) v).
  { apply sort_values_sorted; [exact Qle_bool_total|exact Qle_bool_trans]. }
  assert (Hv : forall y, In y v -> y <= M).
  { intros y Hy. apply Hmax, (Permutation_in _ Hperm), Hy. }
  assert (Hvone : length (filter (fun y => Qle_bool M y) v) = 1%nat).
  { rewrite <- Hone. apply Permutation_length, filter_perm, Hperm. }
  assert (Hvlen : length v = length qs) by apply (Permutation_length Hperm).
  destruct (map Fin v) as [|x0 v0] eqn:Ev.
  { apply (f_equal (@length _)) in Ev. rewrite length_map in Ev. simpl in Ev. lia. }
  rewrite <- Ev. rewrite length_map.
  set (n1 := inject_Z (Z.of_nat (length v - 1))).
  set (pos := n1 * 0.67).
  assert (Hn1 : 1 <= n1).
  { unfold n1. change 1 with (inject_Z 1). rewrite <- Zle_Qle. lia. }
  assert (Hpos0 : 0 <= pos) by (unfold pos; lra).
  assert (Hpos1 : pos < n1) by (unfold pos; lra).
  assert (Hf0 : (0 <= Qfloor pos)%Z).
  { change 0%Z with (Qfloor 0). apply Qfloor_resp_le. exact Hpos0. }
  assert (Hf1 : (Qfloor pos < Z.of_nat (length v - 1))%Z).
  { rewrite Zlt_Qlt. pose proof (Qfloor_le pos). fold n1. lra. }
  set (lo := Z.to_nat (Qfloor pos)).
  assert (Hlo : (S lo < length v)%nat) by (unfold lo; lia).
  replace (Nat.min (S lo) (length v - 1)) with (S lo) by lia.
  assert (Ha : nth lo (map Fin v) NaN = Fin (nth lo v 0)).
  { rewrite (nth_indep _ NaN (Fin 0)) by (rewrite length_map; lia). apply map_nth. }
  assert (Hb : nth (S lo) (map Fin v) NaN = Fin (nth (S lo) v 0)).
  { rewrite (nth_indep _ NaN (Fin 0)) by (rewrite length_map; lia). apply map_nth. }
  rewrite Ha, Hb.
  pose proof (@below_the_top M v lo Hs Hvone Hlo) as Hbelow.
  assert (Hbmax : nth (S lo) v 0 <= M) by (apply Hv, nth_In; lia).
  set (a := nth lo v 0) in *. set (b := nth (S lo) v 0) in *.
  set (t := pos - inject_Z (Qfloor pos)).
  assert (Ht0 : 0 <= t) by (unfold t; pose proof (Qfloor_le pos); lra).
  assert (Ht1 : t < 1).
  { unfold t. pose proof (Qlt_floor pos) as H. rewrite inject_Z_plus in H.
    change (inject_Z 1) with 1 in H. lra. }
  unfold fsub, fneg, fadd, fmul, fin. eexists. split; [reflexivity|].
  rewrite !Qred_correct.
  assert (H1 : 0 < (1 - t) * (M - a)) by (apply Qmult_lt_0_compat; lra).
  assert (H2 : 0 <= t * (M - b)) by (apply Qmult_le_0_compat; lra).
  assert (H : M - (a + (b + - a) * t) == (1 - t) * (M - a) + t * (M - b)) by ring.
  lra.
Qed.

Lemma Nat_leb_total (a b : nat) : (a <=? b)%nat = true \/ (b <=? a)%nat = true.
Proof. rewrite !Nat.leb_le. lia. Qed.

Lemma Nat_leb_antisym (a b : nat) :
  (a <=? b)%nat = true -> (b <=? a)%nat = true -> a = b.
Proof. rewrite !Nat.leb_le. lia. Qed.

Lemma Nat_leb_trans (a b c : nat) :
  (a <=? b)%nat = true -> (b <=? c)%nat = true -> (a <=? c)%nat = true.
Proof. rewrite !Nat.leb_le. lia. Qed.

(** The mean table has one row per cluster id. *)
Lemma cluster_stats_keys_NoDup (cluster_df : list (feature_row * nat)) :
  NoDup (map fst (cluster_stats_of cluster_df)).
Proof.
  unfold cluster_stats_of. rewrite map_map. cbn [fst].
  rewrite (groupby_keys (fun rc : feature_row * nat => snd rc) Nat.eqb Nat.leb).
  apply unique_keys_NoDup;
    [exact Nat.eqb_eq|exact Nat_leb_total|exact Nat_leb_antisym|exact Nat_leb_trans].
Qed.

Lemma Qle_bool_above (M y : Q) : y < M -> Qle_bool M y = false.
Proof.
  intro H. destruct (Qle_bool M y) eqn:E; [|reflexivity].
  apply Qle_bool_iff in E. lra.
Qed.

Lemma filter_nothing (A : Type) (f : A -> bool) (l : list A) :
  (forall x, In x l -> f x = false) -> filter f l = [].
Proof.
  induction l as [|x r IH]; intro H; simpl; [reflexivity|].
  rewrite (H x (or_introl eq_refl)). apply IH. intros y Hy. apply H. right. exact Hy.
Qed.

(** The revenues of rows that all lie strictly below [M]. *)
Lemma revenues_below (M : Q) (c : nat) (rows : list (nat * cluster_means)) :
  ~ In c (map fst rows) ->
  (forall c' s', In (c', s') rows -> c' <> c ->
     exists y, cm_revenue_contribution s' = Fin y /\ y < M) ->
  exists qs,
    map (fun cs => cm_revenue_contribution (snd cs)) rows = map Fin qs
    /\ (forall y, In y qs -> y < M).
Proof.
  induction rows as [|[c' s'] r IH]; intros Hnot Hlow.
  - exists []. split; [reflexivity|intros y []].
  - destruct (Hlow c' s' (or_introl eq_refl)) as [y [Hy Hlt]].
    { intro E. apply Hnot. left. exact E. }
    destruct IH as [qs [Hqs Hall]].
    { intro H. apply Hnot. right. exact H. }
    { intros c'' s'' Hin. apply Hlow. right. exact Hin. }
    exists (y :: qs). split.
    + simpl. rewrite Hy, Hqs. reflexivity.
    + intros z [<-|Hz]; [exact Hlt|apply Hall; exact Hz].
Qed.

(** X18.  With at least two clusters, a cluster whose mean revenue is
    finite and strictly above the mean of every other cluster is labelled
    Premium, the means and the percentile being computed exactly: finite
    arithmetic is exact here, whereas in doubles the interpolated
    percentile of two means that are adjacent doubles can round up to the
    larger one. *)
Theorem highest_revenue_cluster_is_premium
    (cluster_df : list (feature_row * nat)) (c : nat) (stats : cluster_means) (M : Q) :
  let cluster_stats := cluster_stats_of cluster_df in
  Pd.lookup Nat.eqb c cluster_stats = Some stats ->
  cm_revenue_contribution stats = Fin M ->
  (2 <= length cluster_stats)%nat ->
  (forall c' s', In (c', s') cluster_stats -> c' <> c ->
     exists y, cm_revenue_contribution s' = Fin y /\ y < M) ->
  exists stability : string,
    label_of cluster_stats c = Ok ("Premium-" ++ stability)%string.
Proof.
  cbv zeta. intros Hrow HM Htwo Hlow.
  pose proof (cluster_stats_keys_NoDup cluster_df) as Hnd.
  unfold label_of. rewrite Hrow.
  set (cluster_stats := cluster_stats_of cluster_df) in *.
  apply lookup_some in Hrow; [|exact Nat.eqb_eq].
  destruct (in_split _ _ Hrow) as [l1 [l2 E]].
  rewrite E in Hnd. rewrite map_app in Hnd. cbn [map fst] in Hnd.
  pose proof (NoDup_remove_2 _ _ _ Hnd) as Hnot.
  assert (Hn1 : ~ In c (map fst l1)) by (intro H; apply Hnot, in_or_app; left; exact H).
  assert (Hn2 : ~ In c (map fst l2)) by (intro H; apply Hnot, in_or_app; right; exact H).
  destruct (@revenues_below M c l1 Hn1) as [qs1 [E1 H1]].
  { intros c' s' Hin. apply Hlow. rewrite E. apply in_or_app. left. exact Hin. }
  destruct (@revenues_below M c l2 Hn2) as [qs2 [E2 H2]].
  { intros c' s' Hin. apply Hlow. rewrite E. apply in_or_app. right. right. exact Hin. }
  assert (Hrev : map (fun cs => cm_revenue_contribution (snd cs)) cluster_stats
                 = map Fin (qs1 ++ M :: qs2)).
  { rewrite E, !map_app. cbn [map snd]. rewrite E1, E2, HM. reflexivity. }
  rewrite Hrev.
  destruct (@quantile_below_top M (qs1 ++ M :: qs2)) as [r [Hq Hr]].
  - apply (f_equal (@length _)) in Hrev. rewrite !length_map in Hrev. lia.
  - intros y Hy. apply in_app_or in Hy. destruct Hy as [Hy|[<-|Hy]].
    + apply Qlt_le_weak, H1, Hy.
    + apply Qle_refl.
    + apply Qlt_le_weak, H2, Hy.
  - rewrite filter_app. cbn [filter].
    assert (HMM : Qle_bool M M = true) by (apply Qle_bool_iff, Qle_refl).
    rewrite HMM, !filter_nothing; [reflexivity| |].
    + intros y Hy. apply Qle_bool_above. apply H2. exact Hy.
    + intros y Hy. apply Qle_bool_above. apply H1. exact Hy.
  - rewrite Hq, HM. unfold value_label, fgt, flt.
    assert (Hlt : Qltb r M = true) by (apply Qltb_true; exact Hr).
    rewrite Hlt. eexists. reflexivity.
Qed.

(** ** A fit that fails *)









Section FailedFit.
Variable Qsqrt : Q -> Q.

Variable kmeans_centers : Z -> nat -> nat -> nat -> matrix -> matrix.
Variable silhouette_score : matrix -> list nat -> result float64.
Variable davies_bouldin_score : matrix -> list nat -> result float64.

End FailedFit.

End SegmenterEdges.

(** * The index of the feature frame *)

Module FeatureIndex.
Import InventorySegmentation.
Import FeatureProofs.
Import FeatureRanges.
Import DegenerateSeries.

(** Two strictly ascending lists with the same elements are the same
    list. *)
Lemma sorted_same_elements (l1 l2 : list key2) :
  StronglySorted key2_lt l1 -> StronglySorted key2_lt l2 ->
  (forall k, In k l1 <-> In k l2) -> l1 = l2.
Proof.
  intros H1. revert l2. induction H1 as [|a r1 Hr1 IH Ha]; intros l2 H2 Hsame.
  - destruct l2 as [|b r2]; [reflexivity|].
    exfalso. apply (proj2 (Hsame b)). left. reflexivity.
  - destruct H2 as [|b r2 Hr2 Hb].
    { exfalso. apply (proj1 (Hsame a)). left. reflexivity. }
    rewrite Forall_forall in Ha, Hb.
    assert (Hab : a = b).
    { destruct (proj1 (Hsame a) (or_introl eq_refl)) as [E|Hin]; [symmetry; exact E|].
      destruct (proj2 (Hsame b) (or_introl eq_refl)) as [E|Hin']; [exact E|].
      destruct (Hb a Hin) as [Hba _]. destruct (Ha b Hin') as [Hab _].
      apply key2_leb_antisym; assumption. }
    subst b. f_equal. apply IH; [exact Hr2|].
    intro k. split; intro Hk.
    + destruct (proj1 (Hsame k) (or_intror Hk)) as [E|Hin]; [|exact Hin].
      subst k. destruct (Ha a Hk) as [_ Hne]. congruence.
    + destruct (proj2 (Hsame k) (or_intror Hk)) as [E|Hin]; [|exact Hin].
      subst k. destruct (Hb a Hk) as [_ Hne]. congruence.
Qed.

Lemma features_index_keys (df : list sales_row) :
  features_index df = Pd.unique_keys entity key2_eqb key2_leb df.
Proof.
  unfold features_index, revenue_contribution_column, by_entity.
  rewrite map_map. cbn [fst]. apply groupby_keys.
Qed.

Lemma seasonality_keys (Qsqrt : Q -> Q) (df : list sales_row) :
  exists monthly : list (key3 * float64),
    map fst (_calculate_seasonality_strength Qsqrt df)
    = Pd.unique_keys (fun km : key3 * float64 => fst (fst km)) key2_eqb key2_leb monthly
    /\ map fst monthly
       = Pd.unique_keys (fun r => (entity r, month (date r))) key3_eqb key3_leb df.
Proof.
  eexists. split.
  - unfold _calculate_seasonality_strength, map_values. rewrite !map_map. cbn [fst].
    apply groupby_keys.
  - rewrite map_map. cbn [fst]. apply groupby_keys.
Qed.

Lemma series_keys (Qsqrt : Q -> Q) (df : list sales_row) :
  NoDup (features_index df)
  /\ StronglySorted key2_lt (features_index df)
  /\ (forall k, In k (features_index df) <-> exists row, In row df /\ entity row = k)
  /\ map fst (demand_cv_column Qsqrt df) = features_index df
  /\ map fst (normalised_slopes df) = features_index df
  /\ map fst (_calculate_seasonality_strength Qsqrt df) = features_index df.
Proof.
  rewrite features_index_keys.
  assert (Hsorted : forall (A : Type) (key : A -> key2) (l : list A),
            StronglySorted key2_lt (Pd.unique_keys key key2_eqb key2_leb l)).
  { intros A key l. apply unique_keys_sorted;
      [exact key2_eqb_eq|exact key2_leb_total|exact key2_leb_antisym|exact key2_leb_trans]. }
  split; [|split; [|split; [|split; [|split]]]].
  - apply unique_keys_NoDup;
      [exact key2_eqb_eq|exact key2_leb_total|exact key2_leb_antisym|exact key2_leb_trans].
  - apply Hsorted.
  - intro k. apply in_unique_keys. exact key2_eqb_eq.
  - unfold demand_cv_column, map_values, by_entity. rewrite !map_map. cbn [fst].
    apply groupby_keys.
  - unfold normalised_slopes, map_values, by_entity. rewrite !map_map. cbn [fst].
    apply groupby_keys.
  - destruct (seasonality_keys Qsqrt df) as [monthly [Hkeys Hmonthly]].
    rewrite Hkeys. apply sorted_same_elements; [apply Hsorted|apply Hsorted|].
    intro k. rewrite !in_unique_keys by exact key2_eqb_eq. split.
    + intros [[k3 x] [Hin Hk]]. cbn [fst] in Hk. subst k.
      apply (in_map fst) in Hin. rewrite Hmonthly in Hin. cbn [fst] in Hin.
      apply in_unique_keys in Hin; [|exact key3_eqb_eq].
      destruct Hin as [row [Hrow Hk3]]. exists row. split; [exact Hrow|].
      rewrite <- Hk3. reflexivity.
    + intros [row [Hrow Hk]].
      assert (Hin : In (entity row, month (date row)) (map fst monthly)).
      { rewrite Hmonthly. apply in_unique_keys; [exact key3_eqb_eq|].
        exists row. auto. }
      apply in_map_iff in Hin. destruct Hin as [km [Hfst Hin]].
      exists km. split; [exact Hin|]. rewrite Hfst. exact Hk.
Qed.

(** X19.  On a table with at least one row, the index of the feature
    frame lists every entity of the table once, in strictly ascending order
    of (item_id, store_id), and the demand-CV, trend and seasonality series
    are all indexed by exactly that list, so aligning them on the frame
    never leaves a gap. *)
Theorem feature_series_share_the_index (Qsqrt : Q -> Q) (df : list sales_row) :
  df <> [] ->
  NoDup (features_index df)
  /\ StronglySorted key2_lt (features_index df)
  /\ (forall k, In k (features_index df) <-> exists row, In row df /\ entity row = k)
  /\ map fst (demand_cv_column Qsqrt df) = features_index df
  /\ (exists slopes,
        _calculate_trend_slope df = Ok slopes
        /\ map fst slopes = features_index df)
  /\ map fst (_calculate_seasonality_strength Qsqrt df) = features_index df.
Proof.
  intro Hne.
  destruct (series_keys Qsqrt df) as [Hnd [Hs [Hk [Hcv [Hsl Hse]]]]].
  repeat (split; [assumption|]). split; [|exact Hse].
  exists (normalised_slopes df). split; [|exact Hsl].
  apply trend_slope_returns. exact Hne.
Qed.

End FeatureIndex.

(** * The further statements on concrete tables *)

Module EdgeEvaluation.
Import Samples.
Import MoreSamples.

Lemma no_positive_sale_is_intermittent_witness :
  (In sample_stats_I0 (DemandClassifier.calculate_features Qsqrt_floor sample_sales)
   /\ DemandClassifier.non_zero_obs sample_stats_I0 = 0%nat)
  /\ DemandClassifier.CV2 sample_stats_I0 = Fin 0
  /\ DemandClassifier.ADI sample_stats_I0 = PInf
  /\ In (sample_stats_I0, "Intermittent"%string) sample_classified.
Proof.
  assert (Hin : In sample_stats_I0
                  (DemandClassifier.calculate_features Qsqrt_floor sample_sales)).
  { vm_compute. right. left. reflexivity. }
  assert (Hz : DemandClassifier.non_zero_obs sample_stats_I0 = 0%nat) by reflexivity.
  split; [split; assumption|].
  destruct (DemandClassifierEdges.no_positive_sale_is_intermittent
              Qsqrt_floor sample_sales sample_stats_I0 Hin Hz)
    as [Hcv [Hinf [_ Hpat]]].
  split; [exact Hcv|]. split; [|exact Hpat].
  apply Hinf. vm_compute. lia.
Defined.

Lemma few_positive_sales_pattern_witness :
  (In sample_stats_I9 (DemandClassifier.calculate_features Qsqrt_floor sample_sales)
   /\ (DemandClassifier.non_zero_obs sample_stats_I9 <= 1)%nat)
  /\ exists pattern,
       In (sample_stats_I9, pattern) sample_classified
       /\ (pattern = "Smooth"%string \/ pattern = "Intermittent"%string).
Proof.
  assert (Hin : In sample_stats_I9
                  (DemandClassifier.calculate_features Qsqrt_floor sample_sales)).
  { vm_compute. left. reflexivity. }
  assert (Hle : (DemandClassifier.non_zero_obs sample_stats_I9 <= 1)%nat).
  { vm_compute. lia. }
  split; [split; assumption|].
  exact (DemandClassifierEdges.few_positive_sales_pattern
           Qsqrt_floor sample_sales sample_stats_I9 Hin Hle).
Defined.

Lemma always_selling_pattern_witness :
  (In sample_stats_I9 (DemandClassifier.calculate_features Qsqrt_floor sample_sales)
   /\ DemandClassifier.non_zero_obs sample_stats_I9
      = DemandClassifier.num_observations sample_stats_I9
   /\ (1 <= DemandClassifier.num_observations sample_stats_I9)%nat)
  /\ DemandClassifier.ADI sample_stats_I9 = Fin 1
  /\ exists pattern,
       In (sample_stats_I9, pattern) sample_classified
       /\ (pattern = "Smooth"%string \/ pattern = "Erratic"%string).
Proof.
  assert (Hin : In sample_stats_I9
                  (DemandClassifier.calculate_features Qsqrt_floor sample_sales)).
  { vm_compute. left. reflexivity. }
  assert (Hall : DemandClassifier.non_zero_obs sample_stats_I9
                 = DemandClassifier.num_observations sample_stats_I9) by reflexivity.
  assert (Hpos : (1 <= DemandClassifier.num_observations sample_stats_I9)%nat).
  { vm_compute. lia. }
  split; [repeat split; assumption|].
  exact (DemandClassifierEdges.always_selling_pattern
           Qsqrt_floor sample_sales sample_stats_I9 Hin Hall Hpos).
Defined.

Lemma save_results_percentages_witness :
  sample_classified <> []
  /\ Pd.sum (map DemandClassifier.Percentage
                 (DemandClassifier.save_results sample_classified)) = Fin 1.
Proof.
  assert (Hne : sample_classified <> []) by (vm_compute; discriminate).
  split; [exact Hne|].
  exact (proj1 (SummaryProofs.save_results_percentages Hne)).
Defined.

(** The summary of the sample: two of the three entities are
    Intermittent, one is Smooth. *)
Example sample_summary :
  DemandClassifier.save_results sample_classified
  = [ DemandClassifier.mkSummary "Intermittent" 2 (Fin (2 # 3));
      DemandClassifier.mkSummary "Smooth" 1 (Fin (1 # 3)) ].
Proof. vm_compute. reflexivity. Qed.

Import InventorySegmentation.

Lemma in_sample_history_B : In sample_row_B sample_history.
Proof. unfold sample_history. apply in_or_app. right. left. reflexivity. Qed.

Lemma in_sample_history_C : In sample_row_C sample_history.
Proof.
  unfold sample_history. apply in_or_app. right. right. right. left. reflexivity.
Qed.

Lemma in_sample_constant_history : In sample_row_K sample_constant_history.
Proof. unfold sample_constant_history. apply in_or_app. left. left. reflexivity. Qed.

Lemma seasonality_in_unit_interval_witness :
  In sample_row_B sample_history
  /\ (exists v, In (entity sample_row_B, v)
                   (_calculate_seasonality_strength Qsqrt_floor sample_history))
  /\ (forall v, In (entity sample_row_B, v)
                   (_calculate_seasonality_strength Qsqrt_floor sample_history) ->
        exists q, v = Fin q /\ 0 <= q /\ q <= 1).
Proof.
  split; [exact in_sample_history_B|].
  exact (FeatureRanges.seasonality_in_unit_interval
           Qsqrt_floor sample_history sample_row_B in_sample_history_B).
Defined.

Lemma in_sample_history_A : In sample_row_A sample_history.
Proof. unfold sample_history. apply in_or_app. left. left. reflexivity. Qed.

Lemma trend_slope_normalised_witness :
  In sample_row_A sample_history
  /\ exists slopes,
       _calculate_trend_slope sample_history = Ok slopes
       /\ (exists v, In (entity sample_row_A, v) slopes)
       /\ (forall v, In (entity sample_row_A, v) slopes ->
             exists q, v = Fin q /\ -(1) <= q /\ q <= 1).
Proof.
  split; [exact in_sample_history_A|].
  exact (FeatureRanges.trend_slope_normalised
           sample_history sample_row_A in_sample_history_A).
Defined.

Lemma sample_constant_sales :
  forall r, In r (Pd.group_rows entity key2_eqb (entity sample_row_K)
                                sample_constant_history) ->
            sales r = Fin 7 /\ month (date r) = month (date sample_row_K).
Proof.
  intros r Hr. vm_compute in Hr.
  repeat (destruct Hr as [<-|Hr]; [split; reflexivity|]). destruct Hr.
Qed.

Lemma constant_sales_no_trend_witness :
  (In sample_row_K sample_constant_history
   /\ (forall r, In r (Pd.group_rows entity key2_eqb (entity sample_row_K)
                                     sample_constant_history) ->
                 sales r = Fin 7))
  /\ exists slopes,
       _calculate_trend_slope sample_constant_history = Ok slopes
       /\ loc_or_nan slopes (entity sample_row_K) = Fin 0.
Proof.
  assert (Hconst : forall r, In r (Pd.group_rows entity key2_eqb (entity sample_row_K)
                                                 sample_constant_history) ->
                             sales r = Fin 7).
  { intros r Hr. exact (proj1 (@sample_constant_sales r Hr)). }
  split; [split; [exact in_sample_constant_history|exact Hconst]|].
  exact (FeatureEdges.constant_sales_no_trend
           sample_constant_history sample_row_K in_sample_constant_history Hconst).
Defined.

Lemma demand_cv_degenerate_witness :
  (In sample_row_C sample_history
   /\ length (Pd.group_rows entity key2_eqb (entity sample_row_C) sample_history) = 1%nat)
  /\ loc_or_nan (demand_cv_column Qsqrt_floor sample_history) (entity sample_row_C)
     = Fin 0.
Proof.
  assert (Hone : length (Pd.group_rows entity key2_eqb (entity sample_row_C)
                                       sample_history) = 1%nat) by reflexivity.
  split; [split; [exact in_sample_history_C|exact Hone]|].
  exact (proj2 (proj2 (DegenerateSeries.demand_cv_degenerate
                         Qsqrt_floor sample_history sample_row_C in_sample_history_C))
               Hone).
Defined.

Lemma single_month_no_seasonality_witness :
  (In sample_row_K sample_constant_history
   /\ (forall r, In r (Pd.group_rows entity key2_eqb (entity sample_row_K)
                                     sample_constant_history) ->
                 month (date r) = month (date sample_row_K)))
  /\ loc_or_nan (_calculate_seasonality_strength Qsqrt_floor sample_constant_history)
                (entity sample_row_K)
     = Fin 0.
Proof.
  assert (Hmonth : forall r, In r (Pd.group_rows entity key2_eqb (entity sample_row_K)
                                                 sample_constant_history) ->
                             month (date r) = month (date sample_row_K)).
  { intros r Hr. exact (proj2 (@sample_constant_sales r Hr)). }
  split; [split; [exact in_sample_constant_history|exact Hmonth]|].
  exact (DegenerateSeries.single_month_no_seasonality
           Qsqrt_floor sample_constant_history sample_row_K
           in_sample_constant_history Hmonth).
Defined.

Lemma fit_then_predict_witness :
  let after := fit Qsqrt_floor sample_centers sample_score sample_score
                   (__init__ 2 42) sample_features in
  after = (fst after, Ok tt)
  /\ exists clusters,
       predict (fst after) sample_features = Ok clusters
       /\ length clusters = length sample_features.
Proof.
  cbv zeta.
  assert (Hfit : fit Qsqrt_floor sample_centers sample_score sample_score
                     (__init__ 2 42) sample_features
                 = (fst (fit Qsqrt_floor sample_centers sample_score sample_score
                             (__init__ 2 42) sample_features), Ok tt)).
  { vm_compute. reflexivity. }
  split; [exact Hfit|].
  exact (SegmenterProofs.fit_then_predict _ _ _ _ _ _ Hfit).
Defined.



Lemma sample_clusters_cover :
  forall c, (c < n_clusters (__init__ 3 42))%nat -> In c [0; 2; 1]%nat.
Proof.
  intros c Hc. simpl in *.
  destruct c as [|[|[|c]]]; [auto|auto|auto|lia].
Qed.

Lemma assign_business_labels_ok_witness :
  (length [0; 2; 1]%nat = length sample_features
   /\ (forall c, (c < n_clusters (__init__ 3 42))%nat -> In c [0; 2; 1]%nat))
  /\ exists out,
       assign_business_labels (__init__ 3 42) sample_features [0; 2; 1]%nat = Ok out
       /\ length out = length [0; 2; 1]%nat
       /\ (forall i c,
             nth_error [0; 2; 1]%nat i = Some c -> (c < n_clusters (__init__ 3 42))%nat ->
             exists lab,
               nth_error out i = Some (Some lab)
               /\ label_of (cluster_stats_of (combine sample_features [0; 2; 1]%nat)) c
                  = Ok lab).
Proof.
  assert (Hlen : length [0; 2; 1]%nat = length sample_features) by reflexivity.
  split; [split; [exact Hlen|exact sample_clusters_cover]|].
  exact (SegmenterProofs.assign_business_labels_ok
           (__init__ 3 42) sample_features [0; 2; 1]%nat Hlen sample_clusters_cover).
Defined.

Lemma lowest_revenue_cluster_is_budget_witness :
  (Pd.lookup Nat.eqb 0%nat (cluster_stats_of (combine sample_equal_features [0; 1]%nat))
   = Some (mkMeans (Fin 5) (Fin (1 # 5)) (Fin 0) (Fin 0))
   /\ (forall cs, In cs (cluster_stats_of (combine sample_equal_features [0; 1]%nat)) ->
         exists y, cm_revenue_contribution (snd cs) = Fin y /\ 5 <= y))
  /\ exists stability : string,
       label_of (cluster_stats_of (combine sample_equal_features [0; 1]%nat)) 0
       = Ok ("Budget-" ++ stability)%string.
Proof.
  assert (Hrow : Pd.lookup Nat.eqb 0%nat
                   (cluster_stats_of (combine sample_equal_features [0; 1]%nat))
                 = Some (mkMeans (Fin 5) (Fin (1 # 5)) (Fin 0) (Fin 0))).
  { vm_compute. reflexivity. }
  assert (Hmin : forall cs,
             In cs (cluster_stats_of (combine sample_equal_features [0; 1]%nat)) ->
             exists y, cm_revenue_contribution (snd cs) = Fin y /\ 5 <= y).
  { intros cs Hcs. vm_compute in Hcs.
    destruct Hcs as [<-|[<-|[]]]; exists 5; split; try reflexivity; apply Qle_refl. }
  split; [split; assumption|].
  exact (@SegmenterEdges.lowest_revenue_cluster_is_budget
           (cluster_stats_of (combine sample_equal_features [0; 1]%nat)) 0%nat
           (mkMeans (Fin 5) (Fin (1 # 5)) (Fin 0) (Fin 0)) 5 Hrow eq_refl Hmin).
Defined.

Lemma labels_outside_the_range_witness :
  assign_business_labels (__init__ 2 42) sample_features [0; 1; 5]%nat
  = Ok [Some "Budget-Stable"%string; Some "Mid-Tier-Moderate"%string; None]
  /\ length [Some "Budget-Stable"%string; Some "Mid-Tier-Moderate"%string; None]
     = length sample_features
  /\ (forall i c, nth_error [0; 1; 5]%nat i = Some c ->
        (nth_error [Some "Budget-Stable"%string; Some "Mid-Tier-Moderate"%string; None] i
         = Some None
         <-> (n_clusters (__init__ 2 42) <= c)%nat)).
Proof.
  assert (Hrun : assign_business_labels (__init__ 2 42) sample_features [0; 1; 5]%nat
                 = Ok [Some "Budget-Stable"%string; Some "Mid-Tier-Moderate"%string; None]).
  { vm_compute. reflexivity. }
  split; [exact Hrun|].
  exact (@SegmenterEdges.labels_outside_the_range
           (__init__ 2 42) sample_features [0; 1; 5]%nat _ Hrun).
Defined.

Lemma highest_revenue_cluster_is_premium_witness :
  (Pd.lookup Nat.eqb 1%nat (cluster_stats_of (combine sample_features [0; 2; 1]%nat))
   = Some (mkMeans (Fin 9) (Fin 1.7) (Fin 0) (Fin 0))
   /\ (2 <= length (cluster_stats_of (combine sample_features [0; 2; 1]%nat)))%nat
   /\ (forall c' s',
         In (c', s') (cluster_stats_of (combine sample_features [0; 2; 1]%nat)) ->
         c' <> 1%nat ->
         exists y, cm_revenue_contribution s' = Fin y /\ y < 9))
  /\ exists stability : string,
       label_of (cluster_stats_of (combine sample_features [0; 2; 1]%nat)) 1
       = Ok ("Premium-" ++ stability)%string.
Proof.
  assert (Hrow : Pd.lookup Nat.eqb 1%nat
                   (cluster_stats_of (combine sample_features [0; 2; 1]%nat))
                 = Some (mkMeans (Fin 9) (Fin 1.7) (Fin 0) (Fin 0))).
  { vm_compute. reflexivity. }
  assert (Htwo : (2 <= length (cluster_stats_of
                                 (combine sample_features [0; 2; 1]%nat)))%nat).
  { vm_compute. lia. }
  assert (Hlow : forall c' s',
             In (c', s') (cluster_stats_of (combine sample_features [0; 2; 1]%nat)) ->
             c' <> 1%nat ->
             exists y, cm_revenue_contribution s' = Fin y /\ y < 9).
  { intros c' s' Hin Hne. vm_compute in Hin.
    destruct Hin as [E|[E|[E|[]]]]; inversion E; subst.
    - exists 1. split; reflexivity.
    - congruence.
    - exists 5. split; reflexivity. }
  split; [repeat split; assumption|].
  exact (@SegmenterEdges.highest_revenue_cluster_is_premium
           (combine sample_features [0; 2; 1]%nat) 1%nat
           (mkMeans (Fin 9) (Fin 1.7) (Fin 0) (Fin 0)) 9 Hrow eq_refl Htwo Hlow).
Defined.

Lemma feature_series_share_the_index_witness :
  sample_history <> []
  /\ features_index sample_history = [("A", "CA"); ("B", "CA"); ("C", "TX")]%string
  /\ map fst (demand_cv_column Qsqrt_floor sample_history) = features_index sample_history
  /\ (exists slopes,
        _calculate_trend_slope sample_history = Ok slopes
        /\ map fst slopes = features_index sample_history)
  /\ map fst (_calculate_seasonality_strength Qsqrt_floor sample_history)
     = features_index sample_history.
Proof.
  assert (Hne : sample_history <> []) by discriminate.
  destruct (@FeatureIndex.feature_series_share_the_index Qsqrt_floor sample_history Hne)
    as [_ [_ [_ [Hcv [Hsl Hse]]]]].
  split; [exact Hne|]. split; [reflexivity|]. repeat split; assumption.
Defined.

End EdgeEvaluation.
